(** * HubSpot duplicate checker: a shallow embedding of
      [hubspot_duplicate_checker.py] and the properties of its
      duplicate-resolution cascade.

    Python values are JSON-shaped ([pyval]); a function that can raise
    returns an [outcome]; a function that talks to HubSpot, Airtable or
    the Supabase store is a computation [M] over the trace of the
    requests made so far.  The packages the module imports
    ([unicodedata], [phonenumbers], [rapidfuzz]) and the remote
    services are parameters.  Logging and the pause between two leads
    of a batch leave no mark on the results and are left out. *)

From Stdlib Require Import ZArith NArith QArith List String Ascii Bool Lia Lqa.
From stdpp Require Import gmap strings list fin_maps.

Local Open Scope string_scope.
Local Open Scope list_scope.
Local Open Scope Z_scope.

(** ** Python values

    Leads, search hits and update records are JSON-shaped Python
    objects.  A [str] is its sequence of Unicode code points. *)

Abbreviation pystr := (list N).

#[warnings="-register-all"] Inductive pyval : Type :=
  | PNone
  | PBool (b : bool)
  | PInt (z : Z)
  | PFloat (q : Q)
  | PStr (s : pystr)
  | PList (l : list pyval)
  | PDict (d : gmap string pyval).

(** A string literal of the source, as code points. *)
Definition lit (s : string) : pystr :=
  map N_of_ascii (list_ascii_of_string s).

(** Python truthiness ([if v:], [not v], [a and b], [a or b]). *)
Definition truthy (v : pyval) : bool :=
  match v with
  | PNone => false
  | PBool b => b
  | PInt z => negb (z =? 0)
  | PFloat q => negb (Qeq_bool q 0)
  | PStr s => match s with [] => false | _ => true end
  | PList l => match l with [] => false | _ => true end
  | PDict d => negb (Nat.eqb (size d) 0)
  end.

Definition str_truthy (s : pystr) : bool :=
  match s with [] => false | _ => true end.

Fixpoint pystr_eqb (a b : pystr) : bool :=
  match a, b with
  | [], [] => true
  | x :: a', y :: b' => (x =? y)%N && pystr_eqb a' b'
  | _, _ => false
  end.

(** [v == "..."] against a string literal. *)
Definition eq_str (v : pyval) (s : pystr) : bool :=
  match v with PStr t => pystr_eqb t s | _ => false end.

Definition is_none (v : pyval) : bool :=
  match v with PNone => true | _ => false end.

(** ** Exceptions *)

Inductive exn : Type :=
  | AttributeError | KeyError | TypeError | IndexError
  | LibraryError | RemoteError.

Inductive outcome (A : Type) : Type :=
  | Ok (a : A)
  | Raise (e : exn).
Arguments Ok {A} a.
Arguments Raise {A} e.

Definition obind {A B} (m : outcome A) (k : A -> outcome B) : outcome B :=
  match m with Ok a => k a | Raise e => Raise e end.

Notation "'let?' x ':=' m 'in' k" := (obind m (fun x => k))
  (at level 10, x name, m at level 100, k at level 200).

(** [try: body except Exception: handler] *)
Definition try_except {A} (body : outcome A) (handler : exn -> outcome A)
  : outcome A :=
  match body with Ok a => Ok a | Raise e => handler e end.

(** [v.get(k, dflt)]: only a dict has [get]. *)
Definition py_get (v : pyval) (k : string) (dflt : pyval) : outcome pyval :=
  match v with
  | PDict d => Ok (default dflt (d !! k))
  | _ => Raise AttributeError
  end.

(** [d.get(k, dflt)] on a value known to be a dict. *)
Definition dict_get (d : gmap string pyval) (k : string) (dflt : pyval) : pyval :=
  default dflt (d !! k).

(** [v[0]]: the head of a list, the first character of a string; a
    JSON dict has only string keys. *)
Definition py_index0 (v : pyval) : outcome pyval :=
  match v with
  | PList (x :: _) => Ok x
  | PList [] => Raise IndexError
  | PStr (c :: _) => Ok (PStr [c])
  | PStr [] => Raise IndexError
  | PDict _ => Raise KeyError
  | _ => Raise TypeError
  end.

(** ** Text normalisation *)

Definition in_range (lo hi c : N) : bool := ((lo <=? c) && (c <=? hi))%N.

(** CPython's [_PyUnicode_IsWhitespace], shared by [str.strip] and
    the regular-expression class [\s] on [str] patterns. *)
Definition py_isspace (c : N) : bool :=
  in_range 0x09 0x0D c || in_range 0x1C 0x20 c
  || (c =? 0x85)%N || (c =? 0xA0)%N || (c =? 0x1680)%N
  || in_range 0x2000 0x200A c
  || (c =? 0x2028)%N || (c =? 0x2029)%N || (c =? 0x202F)%N
  || (c =? 0x205F)%N || (c =? 0x3000)%N.

(** The class [a-z0-9]. *)
Definition is_az09 (c : N) : bool := in_range 97 122 c || in_range 48 57 c.

Definition SPACE : N := 32%N.

Fixpoint lstrip (s : pystr) : pystr :=
  match s with
  | [] => []
  | c :: r => if py_isspace c then lstrip r else s
  end.

Fixpoint rstrip (s : pystr) : pystr :=
  match s with
  | [] => []
  | c :: r =>
      match rstrip r with
      | [] => if py_isspace c then [] else [c]
      | r' => c :: r'
      end
  end.

(** [s.strip()] *)
Definition py_strip (s : pystr) : pystr := rstrip (lstrip s).

(** [re.sub(r"[^a-z0-9\s]", " ", s)] *)
Definition sub_non_alnum (s : pystr) : pystr :=
  map (fun c => if is_az09 c || py_isspace c then c else SPACE) s.

(** [re.sub(r"\s+", " ", s)]; [in_run] tells that the previous
    character belonged to the whitespace run being replaced. *)
Fixpoint sub_ws_runs (in_run : bool) (s : pystr) : pystr :=
  match s with
  | [] => []
  | c :: r =>
      if py_isspace c
      then (if in_run then sub_ws_runs true r else SPACE :: sub_ws_runs true r)
      else c :: sub_ws_runs false r
  end.

(** The Unicode database behind [str.lower], [str.upper],
    [unicodedata.normalize("NFKD", _)] and [unicodedata.combining]. *)
Record unicode : Type := {
  str_lower : pystr -> pystr;
  str_upper : pystr -> pystr;
  nfkd : pystr -> pystr;
  combining : N -> N
}.

(** A character of a normalised text: [a-z0-9] or the ASCII space. *)
Definition norm_char (c : N) : bool := is_az09 c || (c =? SPACE)%N.

(** What the proofs use of the Unicode database: lower-case ASCII
    letters, digits and the space are already lower case, have no
    decomposition and are not combining marks. *)
Record unicode_ascii (U : unicode) : Prop := {
  lower_norm : forall s, forallb norm_char s = true -> str_lower U s = s;
  nfkd_norm : forall s, forallb norm_char s = true -> nfkd U s = s;
  combining_norm : forall c, norm_char c = true -> combining U c = 0%N
}.

Section Normalizer.
Variable U : unicode.

Definition normalize_text (value : pyval) : pystr :=
  match value with
  | PStr v =>
      let s := str_lower U (py_strip v) in
      let s := nfkd U s in
      let s := List.filter (fun c => (combining U c =? 0)%N) s in
      let s := sub_non_alnum s in
      let s := py_strip (sub_ws_runs false s) in
      s
  | _ => []
  end.

End Normalizer.

(** ** Phone normalisation

    The [phonenumbers] package: [parse], [is_possible_number],
    [is_valid_number] and [format_number(_, E164)]; each may raise. *)
Record phonelib : Type := {
  phonenumber : Type;
  pn_parse : pystr -> option pystr -> outcome phonenumber;
  pn_is_possible_number : phonenumber -> outcome bool;
  pn_is_valid_number : phonenumber -> outcome bool;
  pn_format_e164 : phonenumber -> outcome pystr
}.

Section Phone.
Variable U : unicode.
Variable P : phonelib.

(** The default region handed to [phonenumbers.parse]. *)
Definition default_region (country_code : pyval) : option pystr :=
  match country_code with
  | PStr c => if str_truthy (py_strip c) then Some (str_upper U c) else None
  | _ => None
  end.

(** The [try] block of [normalize_phone]: [Some r] when it executed
    [return r], [None] when control fell through to the end. *)
Definition normalize_phone_try (raw : pystr) (default : option pystr)
  : outcome (option (option pystr)) :=
  try_except
    (let? num := pn_parse P raw default in
     let? possible := pn_is_possible_number P num in
     let? valid := (if possible then pn_is_valid_number P num else Ok false) in
     if valid
     then (let? e164 := pn_format_e164 P num in Ok (Some (Some e164)))
     else Ok None)
    (fun _ => Ok (Some None)).

Definition normalize_phone (phone country_code : pyval)
  : outcome (option pystr) :=
  match phone with
  | PStr p =>
      if negb (str_truthy (py_strip p)) then Ok None
      else
        let raw := py_strip p in
        let default := default_region country_code in
        let? r := normalize_phone_try raw default in
        match r with
        | Some returned => Ok returned
        | None => Ok None
        end
  | _ => Ok None
  end.

End Phone.

(** ** Remote services

    Every request to HubSpot, Airtable or the Supabase store is
    recorded in a trace; the answer of a service may depend on the
    request and on everything requested before. *)

Record hs_filter : Type := {
  propertyName : string;
  operator : string;
  value : pyval
}.

Record hs_payload : Type := {
  filters : list hs_filter;
  properties : list string;
  limit : Z
}.

Inductive event : Type :=
  | HubSpotSearch (object : string) (payload : hs_payload)
  | AirtableList (base_id : pyval) (filterByFormula : pystr) (maxRecords : Z)
  | SupabaseSelect (gte_id : option pyval) (limit : Z)
  | SupabaseUpdate (id : pyval) (data : gmap string pyval).

Abbreviation trace := (list event).

(** [respond ev tr]: the decoded body of the answer to request [ev]
    after history [tr] ([response.json()] once [raise_for_status]
    passed, [result.data] for the store), or the exception raised on
    the way.  [now_isoformat] is [datetime.now().isoformat()]. *)
Record world : Type := {
  respond : event -> trace -> outcome pyval;
  now_isoformat : trace -> pystr
}.

(** Computations that talk to the services and may raise. *)
Definition M (A : Type) : Type := trace -> outcome A * trace.

Definition ret {A} (a : A) : M A := fun tr => (Ok a, tr).

Definition bind {A B} (m : M A) (k : A -> M B) : M B :=
  fun tr =>
    match m tr with
    | (Ok a, tr') => k a tr'
    | (Raise e, tr') => (Raise e, tr')
    end.

Definition lift {A} (o : outcome A) : M A := fun tr => (o, tr).

Definition try_catch {A} (body : M A) (handler : exn -> M A) : M A :=
  fun tr =>
    match body tr with
    | (Ok a, tr') => (Ok a, tr')
    | (Raise e, tr') => handler e tr'
    end.

Notation "'let!' x ':=' m 'in' k" := (bind m (fun x => k))
  (at level 10, x name, m at level 100, k at level 200).

(** The [rapidfuzz.fuzz] scorers; a score is a finite float, kept as
    the rational it denotes. *)
Record fuzzlib : Type := {
  ratio : pystr -> pystr -> Q;
  token_set_ratio : pystr -> pystr -> Q;
  partial_token_sort_ratio : pystr -> pystr -> Q
}.

(** [a >= b] and [a > b] on scores. *)
Definition score_ge (a b : Q) : bool := Qle_bool b a.
Definition score_gt (a b : Q) : bool := negb (Qle_bool a b).

(** [max(a, b)] keeps [a] unless [b] is greater. *)
Definition py_max (a b : Q) : Q := if score_gt b a then b else a.

(** [for x in v]: the items of a list, the characters of a string,
    the keys of a dict (each a [str]). *)
Definition py_iter (v : pyval) : outcome (list pyval) :=
  match v with
  | PList l => Ok l
  | PStr s => Ok (map (fun c => PStr [c]) s)
  | PDict d => Ok (map (fun kv => PStr (lit (fst kv))) (map_to_list d))
  | _ => Raise TypeError
  end.

Section HubSpotClient.
Variable W : world.

(** One request: the answer is read under history [tr], and the
    request is appended to the history. *)
Definition request (ev : event) : M pyval :=
  fun tr => (respond W ev tr, tr ++ [ev]).

Definition contact_properties : list string :=
  ["id"; "email"; "firstname"; "lastname"; "phone"; "company"].

Definition hubspot_search (object : string) (payload : hs_payload) (key : string)
  : M pyval :=
  try_catch
    (let! data := request (HubSpotSearch object payload) in
     lift (py_get data key (PList [])))
    (fun _ => ret (PList [])).

Definition search_contacts_by_email (email : pyval) : M pyval :=
  if negb (truthy email) || eq_str email (lit "nan") then ret (PList [])
  else
    let payload :=
      {| filters := [ {| propertyName := "email"; operator := "EQ";
                         value := email |} ];
         properties := contact_properties;
         limit := 10 |} in
    hubspot_search "contacts" payload "results".

Definition search_contacts_by_phone (phone_e164 : pyval) : M pyval :=
  if negb (truthy phone_e164) then ret (PList [])
  else
    let payload :=
      {| filters := [ {| propertyName := "phone"; operator := "EQ";
                         value := phone_e164 |} ];
         properties := contact_properties;
         limit := 10 |} in
    hubspot_search "contacts" payload "results".

Definition search_contacts_by_name (first_name last_name : pyval) : M pyval :=
  if negb (truthy first_name) && negb (truthy last_name) then ret (PList [])
  else
    let filters0 : list hs_filter := [] in
    let filters1 :=
      if truthy first_name
      then filters0 ++ [ {| propertyName := "firstname";
                            operator := "CONTAINS_TOKEN";
                            value := first_name |} ]
      else filters0 in
    let filters2 :=
      if truthy last_name
      then filters1 ++ [ {| propertyName := "lastname";
                            operator := "CONTAINS_TOKEN";
                            value := last_name |} ]
      else filters1 in
    match filters2 with
    | [] => ret (PList [])
    | _ =>
        let payload :=
          {| filters := filters2;
             properties := contact_properties;
             limit := 20 |} in
        hubspot_search "contacts" payload "results"
    end.

Definition search_deals_by_property_name (property_name city : pyval)
  : M pyval :=
  if negb (truthy property_name) then ret (PList [])
  else
    let payload :=
      {| filters := [ {| propertyName := "dealname";
                         operator := "CONTAINS_TOKEN";
                         value := property_name |} ];
         properties := ["id"; "dealname"; "dealstage"; "amount"; "closedate"];
         limit := 20 |} in
    hubspot_search "deals" payload "results".

End HubSpotClient.

(** ** The Airtable directory *)

Record AirtableClient : Type := {
  token : pyval;
  base_id : pyval
}.

(** [s.replace("'", "\\'")] *)
Definition escape_quotes (s : pystr) : pystr :=
  flat_map (fun c => if (c =? 39)%N then [92%N; 39%N] else [c]) s.

Section Airtable.
Variable W : world.

Definition search_properties (self : AirtableClient)
    (property_name city : pyval) : M pyval :=
  if negb (truthy property_name) then ret (PList [])
  else
    try_catch
      (let! safe_name := lift (match property_name with
                               | PStr s => Ok (escape_quotes s)
                               | _ => Raise AttributeError
                               end) in
       let formula :=
         lit "SEARCH(LOWER('" ++ safe_name
           ++ lit "'), LOWER({Property Name}))" in
       let! data := request W (AirtableList (base_id self) formula 20) in
       lift (py_get data "records" (PList [])))
      (fun _ => ret (PList [])).

End Airtable.

(** ** The duplicate checker *)

Record HubSpotDuplicateChecker : Type := {
  airtable : option AirtableClient
}.

(** [__init__]: the directory adapter exists only when both its token
    and its base are given. *)
Definition new_checker (airtable_token airtable_base : pyval)
  : HubSpotDuplicateChecker :=
  {| airtable :=
       if truthy airtable_token && truthy airtable_base
       then Some {| token := airtable_token; base_id := airtable_base |}
       else None |}.

Inductive match_kind : Type := ByEmail | ByPhone | ByName.

Definition match_kind_str (k : match_kind) : pystr :=
  match k with
  | ByEmail => lit "email"
  | ByPhone => lit "phone"
  | ByName => lit "name"
  end.

(** The value of the variable [match_type]. *)
Definition match_type_val (m : option match_kind) : pyval :=
  match m with
  | Some k => PStr (match_kind_str k)
  | None => PNone
  end.

(** The dict returned by a category: [{'found': False}] or
    [{'found': True, ...}] with the fields of the category. *)
Inductive check (A : Type) : Type :=
  | NotFound
  | Found (m : A).
Arguments NotFound {A}.
Arguments Found {A} m.

Definition found {A} (c : check A) : bool :=
  match c with Found _ => true | NotFound => false end.

Record contact_match : Type := {
  contact_id : pyval;
  contact_email : pyval;
  contact_phone : pyval;
  contact_name : pystr;
  match_type : option match_kind
}.

Record deal_match : Type := {
  deal_id : pyval;
  deal_name : pyval;
  deal_score : Q
}.

Record alohacamp_match : Type := {
  match_id : pyval;
  match_name : pyval;
  score : Q
}.

Definition opt_str (o : option pystr) : pyval :=
  match o with Some s => PStr s | None => PNone end.

Section Checker.
Variable U : unicode.
Variable P : phonelib.
Variable F : fuzzlib.
Variable W : world.
(** [str(v)] for the values an f-string interpolates. *)
Variable py_format : pyval -> pystr.

(** The two name scores of one candidate. *)
Definition name_scores (first_name last_name contact : pyval)
  : outcome (Q * Q) :=
  let? props := py_get contact "properties" (PDict ∅) in
  let? contact_first := py_get props "firstname" (PStr []) in
  let? props' := py_get contact "properties" (PDict ∅) in
  let? contact_last := py_get props' "lastname" (PStr []) in
  let first_score :=
    if truthy first_name && truthy contact_first
    then ratio F (normalize_text U first_name) (normalize_text U contact_first)
    else 0%Q in
  let last_score :=
    if truthy last_name && truthy contact_last
    then ratio F (normalize_text U last_name) (normalize_text U contact_last)
    else 0%Q in
  Ok (first_score, last_score).

(** The loop over [name_results]: [Some contact] when it left by
    [break]. *)
Fixpoint name_loop (first_name last_name : pyval) (name_results : list pyval)
  : outcome (option pyval) :=
  match name_results with
  | [] => Ok None
  | contact :: rest =>
      let? scores := name_scores first_name last_name contact in
      if score_ge (fst scores) 80 || score_ge (snd scores) 80
      then Ok (Some contact)
      else name_loop first_name last_name rest
  end.

(** The email and phone branches of [check_contact_duplicates],
    [if contact_results: ... elif phone_e164: ...]: the pair of
    [contact_results] and [match_type] they leave. *)
Definition exact_stage (phone_e164 : option pystr) (email_results : pyval)
  : M (pyval * option match_kind) :=
  if truthy email_results then ret (email_results, Some ByEmail)
  else if truthy (opt_str phone_e164) then
    let! phone_results := search_contacts_by_phone W (opt_str phone_e164) in
    if truthy phone_results then ret (phone_results, Some ByPhone)
    else ret (phone_results, None)
  else ret (email_results, None).

(** The name branch, [if not contact_results and (first_name or
    last_name): ...]. *)
Definition name_stage (first_name last_name : pyval)
    (after_exact : pyval * option match_kind)
  : M (pyval * option match_kind) :=
  if negb (truthy (fst after_exact))
     && (truthy first_name || truthy last_name)
  then
    let! name_results := search_contacts_by_name W first_name last_name in
    if truthy name_results then
      let! items := lift (py_iter name_results) in
      let! hit := lift (name_loop first_name last_name items) in
      match hit with
      | Some contact => ret (PList [contact], Some ByName)
      | None => ret after_exact
      end
    else ret after_exact
  else ret after_exact.

(** The end of [check_contact_duplicates], [if contact_results: ...
    return {'found': True, ...}] and [return {'found': False}]. *)
Definition contact_result (contact_results : pyval)
    (match_type : option match_kind) : outcome (check contact_match) :=
  if truthy contact_results then
    let? contact := py_index0 contact_results in
    let? props := py_get contact "properties" (PDict ∅) in
    let? cid := py_get contact "id" PNone in
    let? cemail := py_get props "email" (PStr []) in
    let? cphone := py_get props "phone" (PStr []) in
    let? cfirst := py_get props "firstname" (PStr []) in
    let? clast := py_get props "lastname" (PStr []) in
    Ok (Found {| contact_id := cid;
                 contact_email := cemail;
                 contact_phone := cphone;
                 contact_name :=
                   py_strip (py_format cfirst ++ [SPACE] ++ py_format clast);
                 match_type := match_type |})
  else Ok NotFound.

Definition check_contact_duplicates (lead : gmap string pyval)
  : M (check contact_match) :=
  let email := dict_get lead "email" (PStr []) in
  let phone := dict_get lead "phone" (PStr []) in
  let first_name := dict_get lead "first_name" (PStr []) in
  let last_name := dict_get lead "last_name" (PStr []) in
  let company := dict_get lead "company" (PStr []) in
  let! phone_e164 :=
    lift (normalize_phone U P phone (dict_get lead "country" (PStr []))) in
  let! email_results := search_contacts_by_email W email in
  let! after_exact := exact_stage phone_e164 email_results in
  let! after_name := name_stage first_name last_name after_exact in
  lift (contact_result (fst after_name) (snd after_name)).

(** The property-name score of one candidate, whose name is under
    [holder][field]. *)
Definition property_score (holder field : string) (property_norm : pystr)
    (candidate : pyval) : outcome Q :=
  let? props := py_get candidate holder (PDict ∅) in
  let? name := py_get props field (PStr []) in
  let norm := normalize_text U name in
  Ok (py_max (token_set_ratio F property_norm norm)
             (partial_token_sort_ratio F property_norm norm)).

(** The best-match loop of the deal and directory categories. *)
Fixpoint best_loop (score_of : pyval -> outcome Q) (candidates : list pyval)
    (best_match : option pyval) (best_score : Q)
  : outcome (option pyval * Q) :=
  match candidates with
  | [] => Ok (best_match, best_score)
  | candidate :: rest =>
      let? score := score_of candidate in
      if score_gt score best_score
      then best_loop score_of rest (Some candidate) score
      else best_loop score_of rest best_match best_score
  end.

(** [if best_match and best_score >= 70: return {'found': True, ...}]
    of the deal category. *)
Definition deal_result (best_match : option pyval) (best_score : Q)
  : outcome (check deal_match) :=
  match best_match with
  | Some deal =>
      if truthy deal && score_ge best_score 70 then
        let? props := py_get deal "properties" (PDict ∅) in
        let? did := py_get deal "id" PNone in
        let? dname := py_get props "dealname" (PStr []) in
        Ok (Found {| deal_id := did;
                     deal_name := dname;
                     deal_score := best_score |})
      else Ok NotFound
  | None => Ok NotFound
  end.

Definition check_deal_duplicates (lead : gmap string pyval)
  : M (check deal_match) :=
  let property_name := dict_get lead "property_name" (PStr []) in
  let city := dict_get lead "address_city_from_lead" (PStr []) in
  if negb (truthy property_name) then ret NotFound
  else
    let! deal_results :=
      search_deals_by_property_name W property_name city in
    if truthy deal_results then
      let property_norm := normalize_text U property_name in
      let! items := lift (py_iter deal_results) in
      let! best :=
        lift (best_loop (property_score "properties" "dealname" property_norm)
                        items None 0%Q) in
      lift (deal_result (fst best) (snd best))
    else ret NotFound.

(** The same step of the directory category. *)
Definition alohacamp_result (best_match : option pyval) (best_score : Q)
  : outcome (check alohacamp_match) :=
  match best_match with
  | Some record =>
      if truthy record && score_ge best_score 70 then
        let? fields := py_get record "fields" (PDict ∅) in
        let? mid := py_get record "id" PNone in
        let? mname := py_get fields "Property Name" (PStr []) in
        Ok (Found {| match_id := mid;
                     match_name := mname;
                     score := best_score |})
      else Ok NotFound
  | None => Ok NotFound
  end.

Definition check_alohacamp_duplicates (self : HubSpotDuplicateChecker)
    (lead : gmap string pyval) : M (check alohacamp_match) :=
  match airtable self with
  | None => ret NotFound
  | Some client =>
      let property_name := dict_get lead "property_name" (PStr []) in
      let city := dict_get lead "address_city_from_lead" (PStr []) in
      if negb (truthy property_name) then ret NotFound
      else
        let! airtable_results :=
          search_properties W client property_name city in
        if truthy airtable_results then
          let property_norm := normalize_text U property_name in
          let! items := lift (py_iter airtable_results) in
          let! best :=
            lift (best_loop (property_score "fields" "Name" property_norm)
                            items None 0%Q) in
          lift (alohacamp_result (fst best) (snd best))
        else ret NotFound
  end.

End Checker.

(** ** Aggregation and the batch driver *)

(** [l[:n]] *)
Definition slice_to {A} (n : Z) (l : list A) : list A :=
  if 0 <=? n then firstn (Z.to_nat n) l
  else firstn (length l - Z.to_nat (- n)) l.

(** The list comprehension of [fetch_leads_batch]: the rows with
    [zerobounce_status == 'valid'], no earlier verdict and an email. *)
Fixpoint eligible_leads (all_leads : list pyval)
  : outcome (list (gmap string pyval)) :=
  match all_leads with
  | [] => Ok []
  | PDict lead :: rest =>
      let keep :=
        eq_str (dict_get lead "zerobounce_status" PNone) (lit "valid")
        && is_none (dict_get lead "hubspot_duplicate_check_2" PNone)
        && truthy (dict_get lead "email" PNone) in
      let? tail := eligible_leads rest in
      Ok (if keep then lead :: tail else tail)
  | _ :: _ => Raise AttributeError
  end.

(** What [process_batch] returns: [{"error": ...}] or the summary. *)
Inductive batch_result : Type :=
  | BatchError (error : pystr)
  | BatchSummary (leads_processed updated_count errors : Z).

(** The part of [process_lead] after the three checks: the verdict
    and the record built for the store; [checked_at] is the time
    stamp. *)
Definition update_data_of (contact_check : check contact_match)
    (deal_check : check deal_match) (alohacamp_check : check alohacamp_match)
    (checked_at : pystr) : gmap string pyval :=
  let '(status, needs_deal, reason) :=
    if found contact_check
    then (lit "duplicate", true, lit "contact_duplicate")
    else if found deal_check
    then (lit "duplicate", false, lit "deal_exists")
    else if found alohacamp_check
    then (lit "duplicate", false, lit "alohacamp_exists")
    else (lit "unique", true, lit "new_lead") in
  let update_data : gmap string pyval :=
    <["deal_creation_reason" := PStr reason]>
      (<["needs_hubspot_deal" := PBool needs_deal]>
        (<["hubspot_checked_at_2" := PStr checked_at]>
          (<["hubspot_duplicate_check_2" := PStr status]> ∅))) in
  let update_data :=
    match contact_check with
    | Found c =>
        <["hubspot_contact_match_type_2" := match_type_val (match_type c)]>
          (<["hubspot_contact_name_2" := PStr (contact_name c)]>
            (<["hubspot_contact_phone_2" := contact_phone c]>
              (<["hubspot_contact_email_2" := contact_email c]>
                (<["hubspot_contact_id_2" := contact_id c]> update_data))))
    | NotFound => update_data
    end in
  let update_data :=
    match deal_check with
    | Found d =>
        <["hubspot_deal_score_2" := PFloat (deal_score d)]>
          (<["hubspot_deal_name_2" := deal_name d]>
            (<["hubspot_deal_id_2" := deal_id d]> update_data))
    | NotFound => update_data
    end in
  let update_data :=
    match alohacamp_check with
    | Found a =>
        <["alohacamp_score_2" := PFloat (score a)]>
          (<["alohacamp_match_name_2" := match_name a]>
            (<["alohacamp_match_id_2" := match_id a]>
              (<["alohacamp_exists_2" := PBool true]> update_data)))
    | NotFound => <["alohacamp_exists_2" := PBool false]> update_data
    end in
  update_data.

Section Driver.
Variable U : unicode.
Variable P : phonelib.
Variable F : fuzzlib.
Variable W : world.
Variable py_format : pyval -> pystr.
Variable self : HubSpotDuplicateChecker.

(** [datetime.now().isoformat()] *)
Definition now : M pystr := fun tr => (Ok (now_isoformat W tr), tr).

Definition process_lead (lead : gmap string pyval) : M (gmap string pyval) :=
  let! contact_check := check_contact_duplicates U P F W py_format lead in
  let! deal_check := check_deal_duplicates U F W lead in
  let! alohacamp_check := check_alohacamp_duplicates U F W self lead in
  let! checked_at := now in
  ret (update_data_of contact_check deal_check alohacamp_check checked_at).

Definition fetch_leads_batch (batch_size : Z) (start_id : pyval)
  : M (list (gmap string pyval)) :=
  let gte_id := if truthy start_id then Some start_id else None in
  try_catch
    (let! all_leads := request W (SupabaseSelect gte_id (batch_size * 10)) in
     let! rows := lift (py_iter all_leads) in
     let! leads := lift (eligible_leads rows) in
     ret (slice_to batch_size leads))
    (fun _ => ret []).

(** [lead['id']] *)
Definition lead_id (lead : gmap string pyval) : outcome pyval :=
  match lead !! "id" with
  | Some v => Ok v
  | None => Raise KeyError
  end.

(** The body of the [try] of [process_batch] for one lead; the result
    tells whether [result.data] was non-empty. *)
Definition process_one (lead : gmap string pyval) : M bool :=
  let! update_data := process_lead lead in
  let! id := lift (lead_id lead) in
  let! data := request W (SupabaseUpdate id update_data) in
  ret (truthy data).

(** The [for lead in leads] loop with its two counters. *)
Fixpoint batch_loop (leads : list (gmap string pyval))
    (updated_count errors : Z) : M (Z * Z) :=
  match leads with
  | [] => ret (updated_count, errors)
  | lead :: rest =>
      let! counters :=
        try_catch
          (let! updated := process_one lead in
           ret (if updated then updated_count + 1 else updated_count, errors))
          (fun _ => ret (updated_count, errors + 1)) in
      batch_loop rest (fst counters) (snd counters)
  end.

Definition process_batch (batch_size : Z) (start_id : pyval)
  : M batch_result :=
  let! leads := fetch_leads_batch batch_size start_id in
  match leads with
  | [] => ret (BatchError (lit "No leads found to process"))
  | _ =>
      let! counters := batch_loop leads 0 0 in
      ret (BatchSummary (Z.of_nat (length leads))
                        (fst counters) (snd counters))
  end.

End Driver.

(** ** A small world to run the checker in *)

Module Demo.

(** ASCII case mapping, [é] as the one letter with a decomposition,
    U+0300..U+036F as the combining marks. *)
Definition demo_unicode : unicode :=
  {| str_lower := map (fun c => if in_range 65 90 c then (c + 32)%N else c);
     str_upper := map (fun c => if in_range 97 122 c then (c - 32)%N else c);
     nfkd := flat_map (fun c => if (c =? 233)%N then [101%N; 769%N] else [c]);
     combining := fun c => if in_range 768 879 c then 230%N else 0%N |}.

Definition is_digit (c : N) : bool := in_range 48 57 c.

(** Numbers are their digits with the country code; a national number
    is accepted for region PL only. *)
Definition demo_parse (raw : pystr) (default : option pystr)
  : outcome pystr :=
  match raw with
  | 43%N :: ds =>
      if forallb is_digit ds && str_truthy ds then Ok ds
      else Raise LibraryError
  | ds =>
      if forallb is_digit ds && str_truthy ds then
        match default with
        | Some region =>
            if pystr_eqb region (lit "PL") then Ok (lit "48" ++ ds)
            else Raise LibraryError
        | None => Raise LibraryError
        end
      else Raise LibraryError
  end.

Definition demo_phonelib : phonelib :=
  {| phonenumber := pystr;
     pn_parse := demo_parse;
     pn_is_possible_number :=
       fun n => Ok ((8 <=? length n)%nat && (length n <=? 15)%nat);
     pn_is_valid_number := fun n => Ok (length n =? 11)%nat;
     pn_format_e164 := fun n => Ok (43%N :: n) |}.

(** Scores from a table; elsewhere 100 for equal texts and 0 for
    different ones. *)
Definition table_score (table : list (string * string * Q)) (a b : pystr) : Q :=
  match
    find (fun e => pystr_eqb (lit (fst (fst e))) a
                   && pystr_eqb (lit (snd (fst e))) b) table
  with
  | Some e => snd e
  | None => if pystr_eqb a b then 100%Q else 0%Q
  end.

Definition demo_fuzz : fuzzlib :=
  {| ratio := table_score [("jon", "john", 79%Q); ("smith", "smyth", 81%Q)];
     token_set_ratio :=
       table_score [("seaside villa", "seaside villas", 82%Q);
                    ("seaside villa", "seaside vista", 69%Q);
                    ("lake house", "lake houses", 70%Q);
                    ("lake house", "lakehouse", 70%Q);
                    ("lake hut", "lake huts", 69%Q)];
     partial_token_sort_ratio :=
       table_score [("seaside villa", "seaside villas", 80%Q);
                    ("seaside villa", "seaside vista", 60%Q);
                    ("lake house", "lake houses", 65%Q);
                    ("lake house", "lakehouse", 70%Q);
                    ("lake hut", "lake huts", 69%Q)] |}.

Definition str (s : string) : pyval := PStr (lit s).

Definition contact (id email firstname lastname phone : string) : pyval :=
  PDict {[ "id" := str id;
           "properties" :=
             PDict {[ "email" := str email;
                      "firstname" := str firstname;
                      "lastname" := str lastname;
                      "phone" := str phone ]} ]}.

Definition deal (id dealname : string) : pyval :=
  PDict {[ "id" := str id;
           "properties" := PDict {[ "dealname" := str dealname ]} ]}.

Definition listing (id name : string) : pyval :=
  PDict {[ "id" := str id;
           "fields" := PDict {[ "Name" := str name;
                                "Property Name" := str name ]} ]}.

Definition crm_contacts : list pyval :=
  [ contact "101" "a@x.com" "Ann" "Lee" "+48123456789";
    contact "102" "j@x.com" "John" "Smyth" "" ].

Definition crm_deals : list pyval :=
  [ deal "201" "Seaside Vista"; deal "202" "Seaside Villas";
    deal "203" "Lake Houses"; deal "204" "Lakehouse";
    deal "205" "Lake Huts" ].

Definition directory : list pyval :=
  [ listing "rec1" "Seaside Villa"; listing "rec2" "Lake Huts" ].

(** The contacts whose property [prop] equals [v]. *)
Definition contacts_where (prop : string) (v : pyval) : list pyval :=
  List.filter
    (fun c =>
       match c with
       | PDict d =>
           match d !! "properties" with
           | Some (PDict props) =>
               match props !! prop, v with
               | Some (PStr x), PStr y => pystr_eqb x y
               | _, _ => false
               end
           | _ => false
           end
       | _ => false
       end) crm_contacts.

Definition lead_known : gmap string pyval :=
  {[ "id" := PInt 11; "email" := str "a@x.com";
     "property_name" := str "Seaside Villa" ]}.

Definition lead_nan : gmap string pyval :=
  {[ "id" := PInt 12; "email" := str "nan"; "phone" := str " 123456789 ";
     "country" := str "pl"; "first_name" := str "Jon";
     "last_name" := str "Smith" ]}.

Definition lead_named : gmap string pyval :=
  {[ "id" := PInt 13; "email" := str "z@x.com"; "first_name" := str "Jon";
     "last_name" := str "Smith" ]}.

Definition lead_new : gmap string pyval :=
  {[ "id" := PInt 14; "email" := str "new@x.com" ]}.

Definition lead_lake : gmap string pyval :=
  {[ "id" := PInt 15; "email" := str "lake@x.com";
     "property_name" := str "Lake House" ]}.

Definition lead_hut : gmap string pyval :=
  {[ "email" := str "hut@x.com"; "property_name" := str "Lake Hut" ]}.

(** The rows of the store: all of the leads above, [lead_nan] with a
    status that is not valid. *)
Definition row (status : string) (lead : gmap string pyval) : pyval :=
  PDict (<["zerobounce_status" := str status]> lead).

Definition store_rows : list pyval :=
  [ row "valid" lead_known; row "valid" lead_named; row "invalid" lead_nan;
    row "valid" lead_new; row "valid" lead_hut; row "valid" lead_lake ].

(** HubSpot answers equality filters exactly and token filters with
    every object; the directory lists every record unless the formula
    contains the letter k, for which it fails; the store lists [store_rows],
    refuses to update row 13 and reports no row for 14. *)
Definition demo_respond (ev : event) (tr : trace) : outcome pyval :=
  match ev with
  | HubSpotSearch object payload =>
      match filters payload with
      | f :: _ =>
          if String.eqb (operator f) "EQ"
          then Ok (PDict {[ "results" :=
                              PList (contacts_where (propertyName f) (value f)) ]})
          else if String.eqb object "deals"
          then Ok (PDict {[ "results" := PList crm_deals ]})
          else Ok (PDict {[ "results" := PList crm_contacts ]})
      | [] => Raise RemoteError
      end
  | AirtableList _ formula _ =>
      if existsb (fun c => (c =? 107)%N) formula then Raise RemoteError
      else Ok (PDict {[ "records" := PList directory ]})
  | SupabaseSelect _ _ => Ok (PList store_rows)
  | SupabaseUpdate id data =>
      match id with
      | PInt 13 => Raise RemoteError
      | PInt 14 => Ok (PList [])
      | _ => Ok (PList [PDict data])
      end
  end.

Definition demo_world : world :=
  {| respond := demo_respond;
     now_isoformat := fun tr => lit "2024-01-01T00:00:00" |}.

(** [str(v)] for the values of the demo: strings and [None]. *)
Definition demo_format (v : pyval) : pystr :=
  match v with
  | PStr s => s
  | PNone => lit "None"
  | _ => lit "?"
  end.

(** The deals and the directory records as the categories score
    them for [lead_lake] and [lead_known]. *)
Definition lake_scored : list (pyval * Q) :=
  [ (deal "201" "Seaside Vista", 0%Q); (deal "202" "Seaside Villas", 0%Q);
    (deal "203" "Lake Houses", 70%Q); (deal "204" "Lakehouse", 70%Q);
    (deal "205" "Lake Huts", 0%Q) ].

Definition hut_scored : list (pyval * Q) :=
  [ (deal "201" "Seaside Vista", 0%Q); (deal "202" "Seaside Villas", 0%Q);
    (deal "203" "Lake Houses", 0%Q); (deal "204" "Lakehouse", 0%Q);
    (deal "205" "Lake Huts", 69%Q) ].

Definition villa_scored : list (pyval * Q) :=
  [ (listing "rec1" "Seaside Villa", 100%Q); (listing "rec2" "Lake Huts", 0%Q) ].

(** A text with capitals, an accent, tabs, punctuation and a line
    separator. *)
Definition sample_text : pystr :=
  [32; 67; 97; 102; 233; 9; 9; 33; 33; 68; 69; 74; 65; 8232]%N.

Definition with_directory : HubSpotDuplicateChecker :=
  new_checker (str "key") (str "appBase").

Definition without_directory : HubSpotDuplicateChecker :=
  new_checker PNone PNone.

End Demo.

(** ** More leads and two faulty services *)

Module Cases.
Import Demo.

(** [lead_known] with another id, a company and a city. *)
Definition lead_known_elsewhere : gmap string pyval :=
  <["company" := str "ACME"]>
    (<["address_city_from_lead" := str "Gdansk"]>
      (<["id" := PInt 99]> lead_known)).

(** A lead with nothing to search by. *)
Definition lead_bare : gmap string pyval :=
  {[ "id" := PInt 16; "email" := str "nan"; "company" := str "ACME";
     "phone" := str "   " ]}.

(** HubSpot answers every search with one hit that is [null]. *)
Definition null_hit_world : world :=
  {| respond := fun ev tr =>
       match ev with
       | HubSpotSearch _ _ => Ok (PDict {[ "results" := PList [PNone] ]})
       | _ => Raise RemoteError
       end;
     now_isoformat := fun tr => lit "2024-01-01T00:00:00" |}.

(** The store lists one good row and a number. *)
Definition bad_row_world : world :=
  {| respond := fun ev tr =>
       match ev with
       | SupabaseSelect _ _ => Ok (PList [row "valid" lead_known; PInt 3])
       | _ => Raise RemoteError
       end;
     now_isoformat := fun tr => lit "2024-01-01T00:00:00" |}.

End Cases.

(** ** Specification vocabulary *)

(** No two adjacent spaces; [prev_space] tells that the character
    before the text was a space. *)
Fixpoint spaced (prev_space : bool) (s : pystr) : bool :=
  match s with
  | [] => true
  | c :: r =>
      (if (c =? SPACE)%N then negb prev_space else true)
      && spaced (c =? SPACE)%N r
  end.

(** A text in normal form: only [a-z0-9] and single inner spaces. *)
Definition normalized (s : pystr) : Prop :=
  forallb norm_char s = true /\ spaced false s = true /\ py_strip s = s.

(** What an adapter returns for the answer to request [ev]: the
    list under [key], or the empty list when anything went wrong. *)
Definition answer (W : world) (ev : event) (key : string) (tr : trace)
  : pyval :=
  match respond W ev tr with
  | Ok data =>
      match py_get data key (PList []) with
      | Ok v => v
      | Raise _ => PList []
      end
  | Raise _ => PList []
  end.

(** The three contact requests. *)
Definition email_query (email : pyval) : event :=
  HubSpotSearch "contacts"
    {| filters := [ {| propertyName := "email"; operator := "EQ";
                       value := email |} ];
       properties := contact_properties;
       limit := 10 |}.

Definition phone_query (phone_e164 : pyval) : event :=
  HubSpotSearch "contacts"
    {| filters := [ {| propertyName := "phone"; operator := "EQ";
                       value := phone_e164 |} ];
       properties := contact_properties;
       limit := 10 |}.

Definition name_filters (first_name last_name : pyval) : list hs_filter :=
  (if truthy first_name
   then [ {| propertyName := "firstname"; operator := "CONTAINS_TOKEN";
             value := first_name |} ]
   else [])
  ++ (if truthy last_name
      then [ {| propertyName := "lastname"; operator := "CONTAINS_TOKEN";
                value := last_name |} ]
      else []).

Definition name_query (first_name last_name : pyval) : event :=
  HubSpotSearch "contacts"
    {| filters := name_filters first_name last_name;
       properties := contact_properties;
       limit := 20 |}.

(** An email the exact lookup can be asked about. *)
Definition usable_email (email : pyval) : bool :=
  truthy email && negb (eq_str email (lit "nan")).

(** The requests each lookup makes, and what it returns. *)
Definition email_events (email : pyval) : list event :=
  if usable_email email then [email_query email] else [].

Definition email_results (W : world) (email : pyval) (tr : trace) : pyval :=
  if usable_email email then answer W (email_query email) "results" tr
  else PList [].

Definition phone_events (phone_e164 : option pystr) : list event :=
  if truthy (opt_str phone_e164) then [phone_query (opt_str phone_e164)]
  else [].

Definition phone_results (W : world) (phone_e164 : option pystr) (tr : trace)
  : pyval :=
  if truthy (opt_str phone_e164)
  then answer W (phone_query (opt_str phone_e164)) "results" tr
  else PList [].

Definition name_results_of (W : world) (first_name last_name : pyval)
    (tr : trace) : pyval :=
  answer W (name_query first_name last_name) "results" tr.

(** A pair of name scores that passes the threshold of 80. *)
Definition accepted (scores : Q * Q) : Prop :=
  (80 <= fst scores)%Q \/ (80 <= snd scores)%Q.

(** What the email and phone branches leave, and the request they
    make, given the results of the email lookup. *)
Definition exact_events (phone_e164 : option pystr) (email_res : pyval)
  : list event :=
  if truthy email_res then [] else phone_events phone_e164.

Definition exact_outcome (W : world) (phone_e164 : option pystr)
    (email_res : pyval) (tr : trace) : pyval * option match_kind :=
  if truthy email_res then (email_res, Some ByEmail)
  else if truthy (opt_str phone_e164) then
    (phone_results W phone_e164 tr,
     if truthy (phone_results W phone_e164 tr) then Some ByPhone else None)
  else (email_res, None).

(** The name lookup is wanted when nothing was found so far and the
    lead has a first or a last name. *)
Definition name_wanted (first_name last_name : pyval)
    (after_exact : pyval * option match_kind) : bool :=
  negb (truthy (fst after_exact)) && (truthy first_name || truthy last_name).

Definition name_events (first_name last_name : pyval)
    (after_exact : pyval * option match_kind) : list event :=
  if name_wanted first_name last_name after_exact
  then [name_query first_name last_name] else [].

(** The verdict written in an update record. *)
Definition verdict_is (update_data : gmap string pyval)
    (status : string) (reason : string) (needs_deal : bool) : Prop :=
  update_data !! "hubspot_duplicate_check_2" = Some (PStr (lit status))
  /\ update_data !! "deal_creation_reason" = Some (PStr (lit reason))
  /\ update_data !! "needs_hubspot_deal" = Some (PBool needs_deal).

(** The two property requests. *)
Definition deals_query (property_name : pyval) : event :=
  HubSpotSearch "deals"
    {| filters := [ {| propertyName := "dealname";
                       operator := "CONTAINS_TOKEN";
                       value := property_name |} ];
       properties := ["id"; "dealname"; "dealstage"; "amount"; "closedate"];
       limit := 20 |}.

Definition directory_query (client : AirtableClient) (property_name : pystr)
  : event :=
  AirtableList (base_id client)
    (lit "SEARCH(LOWER('" ++ escape_quotes property_name
       ++ lit "'), LOWER({Property Name}))") 20.

(** Candidates with their scores, in the order of the answer:
    [first_max scored c s] says that [c], scored [s], is the first
    candidate that no other candidate beats: the ones before it score
    strictly less, the ones after it at most as much. *)
Definition first_max (scored : list (pyval * Q)) (c : pyval) (s : Q) : Prop :=
  exists pre post,
    scored = pre ++ (c, s) :: post
    /\ Forall (fun x => (snd x < s)%Q) pre
    /\ Forall (fun x => (snd x <= s)%Q) post.

(** What the deal and directory categories promise about the result
    [r] for scored candidates: found exactly when the best score
    reaches 70; the match is the first best candidate, with its score
    and identifier. *)
Definition best_match_law {A} (scored : list (pyval * Q)) (r : check A)
    (score_of_match : A -> Q) (id_of_match : A -> pyval) : Prop :=
  (exists c s, first_max scored c s)
  /\ (forall c s, first_max scored c s ->
        (found r = true <-> (70 <= s)%Q))
  /\ (forall m, r = Found m ->
        exists c, first_max scored c (score_of_match m)
                  /\ py_get c "id" PNone = Ok (id_of_match m))
  /\ (forall c s, first_max scored c s -> (s == 69)%Q -> r = NotFound)
  /\ (forall c s, first_max scored c s -> (s == 70)%Q -> found r = true).

(** [scored_by score_of scored]: every candidate is a non-empty
    record and [score_of] gives it the score listed with it. *)
Definition scored_by (score_of : pyval -> outcome Q)
    (scored : list (pyval * Q)) : Prop :=
  Forall (fun cs => truthy (fst cs) = true /\ score_of (fst cs) = Ok (snd cs))
         scored.

(** The score of one name part: the ratio of the normalised texts
    when both sides are non-empty, 0 otherwise. *)
Definition part_score (U : unicode) (F : fuzzlib)
    (lead_part contact_part : pyval) : Q :=
  if truthy lead_part && truthy contact_part
  then ratio F (normalize_text U lead_part) (normalize_text U contact_part)
  else 0%Q.

(** A candidate the name loop passes over: it has scores and none
    reaches 80. *)
Definition passed_over (U : unicode) (F : fuzzlib)
    (first_name last_name contact : pyval) : Prop :=
  exists scores,
    name_scores U F first_name last_name contact = Ok scores
    /\ ~ accepted scores.

(** How the attempt on one lead of a batch ends: its row was
    updated, the store reported no row, or an exception was caught. *)
Inductive lead_outcome : Type := Updated | Unchanged | Failed.

Definition lead_outcome_eqb (a b : lead_outcome) : bool :=
  match a, b with
  | Updated, Updated | Unchanged, Unchanged | Failed, Failed => true
  | _, _ => false
  end.

Fixpoint count (o : lead_outcome) (os : list lead_outcome) : Z :=
  match os with
  | [] => 0
  | x :: rest => (if lead_outcome_eqb x o then 1 else 0) + count o rest
  end.

Section Attempts.
Variable U : unicode.
Variable P : phonelib.
Variable F : fuzzlib.
Variable W : world.
Variable py_format : pyval -> pystr.
Variable self : HubSpotDuplicateChecker.

(** One lead attempted after history [tr]. *)
Definition attempt (lead : gmap string pyval) (tr : trace)
  : lead_outcome * trace :=
  match process_one U P F W py_format self lead tr with
  | (Ok true, tr') => (Updated, tr')
  | (Ok false, tr') => (Unchanged, tr')
  | (Raise _, tr') => (Failed, tr')
  end.

(** Every lead attempted in turn, each after the history its
    predecessors left, whatever their outcomes. *)
Fixpoint attempts (leads : list (gmap string pyval)) (tr : trace)
  : list lead_outcome * trace :=
  match leads with
  | [] => ([], tr)
  | lead :: rest =>
      let this := attempt lead tr in
      let others := attempts rest (snd this) in
      (fst this :: fst others, snd others)
  end.

End Attempts.

(** The value of a run that did not raise, not-found otherwise. *)
Definition fst_ok {A} (run : outcome (check A) * trace) : check A :=
  match fst run with
  | Ok r => r
  | Raise _ => NotFound
  end.

(** The verdict an update record must carry for the results of the
    three categories, by the priority contact, deal, directory. *)
Definition verdict_law (cc : check contact_match) (dc : check deal_match)
    (ac : check alohacamp_match) (ud : gmap string pyval) : Prop :=
  (found cc = true -> verdict_is ud "duplicate" "contact_duplicate" true)
  /\ (found cc = false -> found dc = true ->
      verdict_is ud "duplicate" "deal_exists" false)
  /\ (found cc = false -> found dc = false -> found ac = true ->
      verdict_is ud "duplicate" "alohacamp_exists" false)
  /\ (found cc = false -> found dc = false -> found ac = false ->
      verdict_is ud "unique" "new_lead" true)
  /\ (ud !! "hubspot_duplicate_check_2" = Some (PStr (lit "unique")) ->
      verdict_is ud "unique" "new_lead" true)
  /\ (ud !! "hubspot_duplicate_check_2" = Some (PStr (lit "duplicate")) ->
      verdict_is ud "duplicate" "contact_duplicate" true
      \/ verdict_is ud "duplicate" "deal_exists" false
      \/ verdict_is ud "duplicate" "alohacamp_exists" false).

(** The linkage fields an update record must carry for the results
    of the three categories. *)
Definition linkage_law (cc : check contact_match) (dc : check deal_match)
    (ac : check alohacamp_match) (ud : gmap string pyval) : Prop :=
  (forall c, cc = Found c ->
     ud !! "hubspot_contact_id_2" = Some (contact_id c)
     /\ ud !! "hubspot_contact_email_2" = Some (contact_email c)
     /\ ud !! "hubspot_contact_phone_2" = Some (contact_phone c)
     /\ ud !! "hubspot_contact_name_2" = Some (PStr (contact_name c))
     /\ ud !! "hubspot_contact_match_type_2"
        = Some (match_type_val (match_type c)))
  /\ (forall d, dc = Found d ->
      ud !! "hubspot_deal_id_2" = Some (deal_id d)
      /\ ud !! "hubspot_deal_name_2" = Some (deal_name d)
      /\ ud !! "hubspot_deal_score_2" = Some (PFloat (deal_score d)))
  /\ (forall a, ac = Found a ->
      ud !! "alohacamp_match_id_2" = Some (match_id a)
      /\ ud !! "alohacamp_match_name_2" = Some (match_name a)
      /\ ud !! "alohacamp_score_2" = Some (PFloat (score a)))
  /\ ud !! "alohacamp_exists_2" = Some (PBool (found ac)).

(** A request that searches, as opposed to one that reads or writes
    the store. *)
Definition is_search (ev : event) : bool :=
  match ev with
  | HubSpotSearch _ _ | AirtableList _ _ _ => true
  | SupabaseSelect _ _ | SupabaseUpdate _ _ => false
  end.

Definition is_update (ev : event) : bool :=
  match ev with
  | SupabaseUpdate _ _ => true
  | _ => false
  end.

Definition is_dict (v : pyval) : bool :=
  match v with PDict _ => true | _ => false end.

(** A row the batch driver may take: valid email status, no verdict
    yet, an email. *)
Definition eligible (lead : gmap string pyval) : bool :=
  eq_str (dict_get lead "zerobounce_status" PNone) (lit "valid")
  && is_none (dict_get lead "hubspot_duplicate_check_2" PNone)
  && truthy (dict_get lead "email" PNone).

(** The request of [fetch_leads_batch]. *)
Definition select_query (batch_size : Z) (start_id : pyval) : event :=
  SupabaseSelect (if truthy start_id then Some start_id else None)
                 (batch_size * 10).

(** The request of the directory category, if it makes one. *)
Definition directory_events (self : HubSpotDuplicateChecker)
    (property_name : pyval) : list event :=
  match airtable self, property_name with
  | Some client, PStr (c :: name) => [directory_query client (c :: name)]
  | _, _ => []
  end.

Definition deal_events (property_name : pyval) : list event :=
  if truthy property_name then [deals_query property_name] else [].

(** What an adapter does: it returns, having made no request and
    found nothing, or one request whose answer it returns. *)
Definition adapter_law (W : world) (key : string) (tr : trace)
    (run : outcome pyval * trace) : Prop :=
  exists v evs,
    run = (Ok v, tr ++ evs)
    /\ ((evs = [] /\ v = PList [])
        \/ exists ev, evs = [ev] /\ is_search ev = true
                      /\ v = answer W ev key tr).

(** The number of store updates among some requests. *)
Definition updates (evs : list event) : nat :=
  length (List.filter is_update evs).

(** A request one lead may cause: a search, or the update of its own
    row. *)
Definition request_of (lead : gmap string pyval) (ev : event) : Prop :=
  is_search ev = true
  \/ exists id ud, ev = SupabaseUpdate id ud /\ lead !! "id" = Some id.

(** How a contact match [m] came about, for the normalised phone
    [phone_e164] of the lead: by the first hit of the email lookup, by
    the first hit of the phone lookup, or by a name candidate with an
    accepted score. *)
Definition found_by (U : unicode) (F : fuzzlib) (W : world)
    (fmt : pyval -> pystr) (lead : gmap string pyval) (tr : trace)
    (phone_e164 : option pystr) (m : contact_match) : Prop :=
  let email := dict_get lead "email" (PStr []) in
  let first_name := dict_get lead "first_name" (PStr []) in
  let last_name := dict_get lead "last_name" (PStr []) in
  let email_res := email_results W email tr in
  let tr1 := tr ++ email_events email in
  let phone_res := phone_results W phone_e164 tr1 in
  let tr2 := tr1 ++ exact_events phone_e164 email_res in
  (match_type m = Some ByEmail
   /\ truthy email_res = true
   /\ contact_result fmt email_res (Some ByEmail) = Ok (Found m))
  \/ (match_type m = Some ByPhone
      /\ truthy email_res = false /\ truthy phone_res = true
      /\ contact_result fmt phone_res (Some ByPhone) = Ok (Found m))
  \/ (match_type m = Some ByName
      /\ truthy email_res = false /\ truthy phone_res = false
      /\ exists items contact scores,
           py_iter (name_results_of W first_name last_name tr2) = Ok items
           /\ In contact items
           /\ name_scores U F first_name last_name contact = Ok scores
           /\ accepted scores
           /\ contact_result fmt (PList [contact]) (Some ByName)
              = Ok (Found m)).

(** * Properties *)

(** ** The normaliser *)

Ltac bool_cases :=
  repeat match goal with
    | H : _ || _ = true |- _ => apply orb_true_iff in H; destruct H
    | H : _ && _ = true |- _ => apply andb_true_iff in H; destruct H
    | H : (_ <=? _)%N = true |- _ => apply N.leb_le in H
    | H : (_ =? _)%N = true |- _ => apply N.eqb_eq in H
    end.

Lemma az09_not_space c : is_az09 c = true -> py_isspace c = false.
Proof.
  unfold is_az09, py_isspace, in_range. intros H.
  apply not_true_is_false. intros Hs.
  bool_cases; lia.
Qed.

Lemma az09_not_SPACE c : is_az09 c = true -> (c =? SPACE)%N = false.
Proof.
  unfold is_az09, in_range, SPACE. intros H.
  apply N.eqb_neq. intros ->. discriminate H.
Qed.

Lemma SPACE_isspace : py_isspace SPACE = true.
Proof. reflexivity. Qed.

Lemma norm_char_cases c :
  norm_char c = true ->
  (is_az09 c = true /\ py_isspace c = false /\ (c =? SPACE)%N = false)
  \/ c = SPACE.
Proof.
  unfold norm_char. intros H. apply orb_true_iff in H as [H | H].
  - left. auto using az09_not_space, az09_not_SPACE.
  - right. now apply N.eqb_eq.
Qed.

Lemma spaced_weaken s : spaced true s = true -> spaced false s = true.
Proof.
  destruct s as [| c r]; simpl; [easy |].
  destruct (c =? SPACE)%N; simpl; [discriminate | easy].
Qed.

Lemma spaced_tail b c r : spaced b (c :: r) = true -> spaced false r = true.
Proof.
  simpl. intros H. apply andb_true_iff in H as [_ H].
  destruct (c =? SPACE)%N; auto using spaced_weaken.
Qed.

Lemma sub_non_alnum_class s :
  forallb (fun c => is_az09 c || py_isspace c) (sub_non_alnum s) = true.
Proof.
  induction s as [| c r IH]; simpl; [reflexivity |].
  rewrite IH, andb_true_r.
  destruct (is_az09 c || py_isspace c) eqn:E; [exact E | reflexivity].
Qed.

Lemma sub_ws_runs_shape s : forall b,
  forallb (fun c => is_az09 c || py_isspace c) s = true ->
  forallb norm_char (sub_ws_runs b s) = true
  /\ spaced b (sub_ws_runs b s) = true.
Proof.
  induction s as [| c r IH]; intros b H; simpl in *; [auto |].
  apply andb_true_iff in H as [Hc Hr].
  destruct (py_isspace c) eqn:Es.
  - destruct (IH true Hr) as [IH1 IH2].
    destruct b; simpl; [auto |].
    rewrite IH1, IH2. auto.
  - rewrite orb_false_r in Hc.
    destruct (IH false Hr) as [IH1 IH2]. simpl.
    unfold norm_char at 1. rewrite Hc, (az09_not_SPACE _ Hc), IH1, IH2. auto.
Qed.

Lemma lstrip_shape s :
  forallb norm_char s = true -> spaced false s = true ->
  forallb norm_char (lstrip s) = true /\ spaced false (lstrip s) = true.
Proof.
  induction s as [| c r IH]; intros H1 H2; [auto |].
  simpl. destruct (py_isspace c); [| auto].
  apply IH.
  - simpl in H1. now apply andb_true_iff in H1.
  - eauto using spaced_tail.
Qed.

Lemma rstrip_shape s : forall b,
  forallb norm_char s = true -> spaced b s = true ->
  forallb norm_char (rstrip s) = true /\ spaced b (rstrip s) = true.
Proof.
  induction s as [| c r IH]; intros b H1 H2; [auto |].
  simpl in H1, H2. apply andb_true_iff in H1 as [Hc Hr].
  apply andb_true_iff in H2 as [Hb Hs].
  destruct (IH _ Hr Hs) as [IH1 IH2]. simpl.
  destruct (rstrip r) as [| d r'].
  - destruct (py_isspace c); simpl; [auto |].
    rewrite Hc, Hb. auto.
  - remember (d :: r') as t. simpl. rewrite Hc, Hb, IH1, IH2. auto.
Qed.

Lemma lstrip_length s : (length (lstrip s) <= length s)%nat.
Proof.
  induction s as [| c r IH]; simpl; [lia |].
  destruct (py_isspace c); simpl; lia.
Qed.

Lemma lstrip_head s :
  match lstrip s with
  | [] => True
  | c :: _ => py_isspace c = false
  end.
Proof.
  induction s as [| c r IH]; simpl; [exact I |].
  destruct (py_isspace c) eqn:E; [exact IH | exact E].
Qed.

Lemma rstrip_keeps_head c r :
  py_isspace c = false -> exists r', rstrip (c :: r) = c :: r'.
Proof.
  intros H. simpl. destruct (rstrip r); rewrite ?H; eauto.
Qed.

Lemma rstrip_idem s : rstrip (rstrip s) = rstrip s.
Proof.
  induction s as [| c r IH]; simpl; [reflexivity |].
  destruct (rstrip r) as [| d r'] eqn:E.
  - destruct (py_isspace c) eqn:Ec; simpl; [reflexivity |].
    now rewrite Ec.
  - remember (d :: r') as t. simpl. rewrite IH. now subst t.
Qed.

Lemma py_strip_idem s : py_strip (py_strip s) = py_strip s.
Proof.
  unfold py_strip. pose proof (lstrip_head s) as Hh.
  destruct (lstrip s) as [| c r]; [reflexivity |].
  destruct (rstrip_keeps_head c r Hh) as [r' E].
  rewrite E. simpl lstrip. rewrite Hh, <- E. apply rstrip_idem.
Qed.

Lemma sub_non_alnum_fixed s :
  forallb norm_char s = true -> sub_non_alnum s = s.
Proof.
  induction s as [| c r IH]; simpl; [reflexivity |].
  intros H. apply andb_true_iff in H as [Hc Hr].
  rewrite (IH Hr). f_equal.
  destruct (norm_char_cases c Hc) as [(Ha & _ & _) | ->].
  - now rewrite Ha.
  - reflexivity.
Qed.

Lemma sub_ws_runs_fixed s : forall b,
  forallb norm_char s = true -> spaced b s = true -> sub_ws_runs b s = s.
Proof.
  induction s as [| c r IH]; intros b H1 H2; simpl in *; [reflexivity |].
  apply andb_true_iff in H1 as [Hc Hr].
  apply andb_true_iff in H2 as [Hb Hs].
  destruct (norm_char_cases c Hc) as [(_ & Hn & He) | ->].
  - rewrite Hn. rewrite He in Hs. now rewrite (IH false Hr Hs).
  - rewrite SPACE_isspace. simpl in Hb, Hs.
    destruct b; [discriminate |]. now rewrite (IH true Hr Hs).
Qed.

Lemma filter_fixed (p : N -> bool) (s : pystr) :
  (forall c, In c s -> p c = true) -> List.filter p s = s.
Proof.
  induction s as [| c r IH]; simpl; intros H; [reflexivity |].
  rewrite (H c (or_introl eq_refl)). f_equal. apply IH. auto.
Qed.

Lemma normalize_text_normalized U x : normalized (normalize_text U x).
Proof.
  destruct x; try (repeat split; reflexivity).
  unfold normalize_text.
  set (t := sub_non_alnum _).
  destruct (sub_ws_runs_shape t false (sub_non_alnum_class _)) as [H1 H2].
  unfold normalized, py_strip at 1 2.
  destruct (lstrip_shape _ H1 H2) as [H3 H4].
  destruct (rstrip_shape _ false H3 H4) as [H5 H6].
  fold (py_strip (sub_ws_runs false t)).
  repeat split; auto using py_strip_idem.
Qed.

Lemma normalized_fixed U s :
  unicode_ascii U -> normalized s -> normalize_text U (PStr s) = s.
Proof.
  intros HU (Hc & Hs & Hstrip). unfold normalize_text.
  rewrite Hstrip, (lower_norm U HU s Hc), (nfkd_norm U HU s Hc).
  rewrite filter_fixed.
  - now rewrite (sub_non_alnum_fixed s Hc), (sub_ws_runs_fixed s false Hc Hs).
  - intros c Hin. rewrite (combining_norm U HU); [reflexivity |].
    rewrite forallb_forall in Hc. auto.
Qed.

(** C5: [normalize_text] is idempotent: normalising its own result
    changes nothing, whatever the input value; and a value that is not
    a string is normalised to the empty string. *)
Theorem normalize_text_idempotent (U : unicode) (HU : unicode_ascii U) :
  (forall x : pyval,
     normalize_text U (PStr (normalize_text U x)) = normalize_text U x)
  /\ (forall s : pystr, normalized s -> normalize_text U (PStr s) = s)
  /\ (forall x : pyval,
        (forall s, x <> PStr s) -> normalize_text U x = []).
Proof.
  repeat split.
  - intros x. apply normalized_fixed; auto using normalize_text_normalized.
  - intros s Hs. now apply normalized_fixed.
  - intros x Hx. destruct x; try reflexivity. now destruct (Hx s).
Qed.

(** ** Phone normalisation *)

Lemma normalize_phone_try_returns U P raw cc :
  exists r, normalize_phone_try P raw (default_region U cc) = Ok r.
Proof.
  unfold normalize_phone_try.
  destruct (pn_parse P raw _) as [num |]; simpl; eauto.
  destruct (pn_is_possible_number P num) as [[] |]; simpl; eauto.
  destruct (pn_is_valid_number P num) as [[] |]; simpl; eauto.
  destruct (pn_format_e164 P num); simpl; eauto.
Qed.

Lemma normalize_phone_try_some P raw default e164 :
  normalize_phone_try P raw default = Ok (Some (Some e164)) <->
  exists num,
    pn_parse P raw default = Ok num
    /\ pn_is_possible_number P num = Ok true
    /\ pn_is_valid_number P num = Ok true
    /\ pn_format_e164 P num = Ok e164.
Proof.
  unfold normalize_phone_try. split.
  - destruct (pn_parse P raw default) as [num |]; simpl; [| discriminate].
    destruct (pn_is_possible_number P num) as [[] |] eqn:E1; simpl;
      try discriminate.
    destruct (pn_is_valid_number P num) as [[] |] eqn:E2; simpl;
      try discriminate.
    destruct (pn_format_e164 P num) eqn:E3; simpl; [| discriminate].
    intros [= ->]. exists num. auto.
  - intros (num & -> & H1 & H2 & H3). simpl. rewrite H1. simpl.
    rewrite H2. simpl. now rewrite H3.
Qed.

Lemma normalize_phone_returns U P phone country_code :
  exists r, normalize_phone U P phone country_code = Ok r.
Proof.
  unfold normalize_phone. destruct phone; eauto.
  destruct (str_truthy (py_strip s)); simpl; eauto.
  destruct (normalize_phone_try_returns U P (py_strip s) country_code)
    as [[r |] ->]; simpl; eauto.
Qed.

(** C4: [normalize_phone] never raises; it returns [None] for a value
    that is not a string, for an empty or blank string and for a
    string that [phonenumbers.parse] rejects; and it returns a string
    exactly when the input is a non-blank string that parses (with
    the upper-cased country hint as default region) to a number that
    is both possible and valid, the string being its E.164 format. *)
Theorem normalize_phone_spec (U : unicode) (P : phonelib)
    (phone country_code : pyval) :
  (exists r, normalize_phone U P phone country_code = Ok r)
  /\ ((forall s, phone <> PStr s) ->
      normalize_phone U P phone country_code = Ok None)
  /\ (forall p, phone = PStr p -> py_strip p = [] ->
      normalize_phone U P phone country_code = Ok None)
  /\ (forall p e, phone = PStr p ->
      pn_parse P (py_strip p) (default_region U country_code) = Raise e ->
      normalize_phone U P phone country_code = Ok None)
  /\ (forall e164,
      normalize_phone U P phone country_code = Ok (Some e164) <->
      exists p num,
        phone = PStr p /\ py_strip p <> []
        /\ pn_parse P (py_strip p) (default_region U country_code) = Ok num
        /\ pn_is_possible_number P num = Ok true
        /\ pn_is_valid_number P num = Ok true
        /\ pn_format_e164 P num = Ok e164).
Proof.
  split; [| split; [| split; [| split; [| intros e164; split]]]].
  - apply normalize_phone_returns.
  - intros H. destruct phone; try reflexivity. now destruct (H s).
  - intros p -> Hp. unfold normalize_phone. now rewrite Hp.
  - intros p e -> Hp. unfold normalize_phone.
    destruct (str_truthy (py_strip p)); simpl; [| reflexivity].
    unfold normalize_phone_try. now rewrite Hp.
  - unfold normalize_phone. destruct phone; try discriminate.
    destruct (py_strip s) as [| c r] eqn:Es; simpl; [discriminate |].
    destruct (normalize_phone_try P (c :: r) _) as [[[r' |] |] |] eqn:E;
      simpl; try discriminate.
    intros [= ->]. apply normalize_phone_try_some in E as (num & H).
    exists s, num. rewrite Es. split; [reflexivity |]. split; [easy | exact H].
  - intros (p & num & -> & Hp & H1 & H2 & H3 & H4).
    unfold normalize_phone.
    destruct (py_strip p) as [| c r] eqn:Es; [easy |]. simpl.
    assert (E : normalize_phone_try P (c :: r) (default_region U country_code)
                = Ok (Some (Some e164)))
      by (apply normalize_phone_try_some; eauto).
    now rewrite E.
Qed.

(** ** Requests and traces *)

Lemma hubspot_search_run W object payload key tr :
  hubspot_search W object payload key tr
  = (Ok (answer W (HubSpotSearch object payload) key tr),
     tr ++ [HubSpotSearch object payload]).
Proof.
  unfold hubspot_search, try_catch, bind, request, lift, answer, ret.
  destruct (respond W _ tr) as [data |]; [| reflexivity].
  destruct (py_get data key (PList [])); reflexivity.
Qed.

Lemma search_email_run W email tr :
  search_contacts_by_email W email tr
  = (Ok (email_results W email tr), tr ++ email_events email).
Proof.
  unfold search_contacts_by_email, email_results, email_events, usable_email.
  destruct (truthy email); simpl.
  - destruct (eq_str email (lit "nan")); simpl.
    + unfold ret. now rewrite app_nil_r.
    + apply hubspot_search_run.
  - unfold ret. now rewrite app_nil_r.
Qed.

Lemma search_phone_run W phone_e164 tr :
  search_contacts_by_phone W (opt_str phone_e164) tr
  = (Ok (phone_results W phone_e164 tr), tr ++ phone_events phone_e164).
Proof.
  unfold search_contacts_by_phone, phone_results, phone_events.
  destruct (truthy (opt_str phone_e164)); simpl.
  - apply hubspot_search_run.
  - unfold ret. now rewrite app_nil_r.
Qed.

Lemma search_name_run W first_name last_name tr :
  truthy first_name || truthy last_name = true ->
  search_contacts_by_name W first_name last_name tr
  = (Ok (name_results_of W first_name last_name tr),
     tr ++ [name_query first_name last_name]).
Proof.
  unfold search_contacts_by_name, name_results_of, name_query, name_filters.
  intros H.
  destruct (truthy first_name), (truthy last_name); try discriminate;
    simpl; apply hubspot_search_run.
Qed.

Lemma exact_stage_run W phone_e164 email_res tr :
  exact_stage W phone_e164 email_res tr
  = (Ok (exact_outcome W phone_e164 email_res tr),
     tr ++ exact_events phone_e164 email_res).
Proof.
  unfold exact_stage, exact_outcome, exact_events.
  destruct (truthy email_res).
  - unfold ret. now rewrite app_nil_r.
  - destruct (truthy (opt_str phone_e164)) eqn:E.
    + unfold bind. rewrite search_phone_run.
      unfold phone_results at 1. rewrite E.
      fold (phone_results W phone_e164 tr).
      assert (Hr : phone_results W phone_e164 tr
                   = answer W (phone_query (opt_str phone_e164)) "results" tr)
        by (unfold phone_results; now rewrite E).
      rewrite <- Hr. now destruct (truthy (phone_results W phone_e164 tr)).
    + unfold ret, phone_events. now rewrite E, app_nil_r.
Qed.

Lemma name_stage_skip U F W first_name last_name after_exact tr :
  name_wanted first_name last_name after_exact = false ->
  name_stage U F W first_name last_name after_exact tr = (Ok after_exact, tr).
Proof.
  unfold name_stage, name_wanted. now intros ->.
Qed.

Lemma name_stage_run U F W first_name last_name after_exact tr :
  name_wanted first_name last_name after_exact = true ->
  name_stage U F W first_name last_name after_exact tr
  = (let name_results := name_results_of W first_name last_name tr in
     if truthy name_results then
       let? items := py_iter name_results in
       let? hit := name_loop U F first_name last_name items in
       match hit with
       | Some contact => Ok (PList [contact], Some ByName)
       | None => Ok after_exact
       end
     else Ok after_exact,
     tr ++ [name_query first_name last_name]).
Proof.
  unfold name_stage, name_wanted. intros H. rewrite H.
  apply andb_true_iff in H as [_ H].
  unfold bind. rewrite (search_name_run W _ _ tr H). simpl.
  destruct (truthy (name_results_of W first_name last_name tr));
    [| reflexivity].
  unfold lift. destruct (py_iter _) as [items |]; simpl; [| reflexivity].
  destruct (name_loop U F first_name last_name items) as [[c |] |];
    reflexivity.
Qed.

Lemma name_stage_trace U F W first_name last_name after_exact tr :
  snd (name_stage U F W first_name last_name after_exact tr)
  = tr ++ name_events first_name last_name after_exact.
Proof.
  unfold name_events.
  destruct (name_wanted first_name last_name after_exact) eqn:E.
  - now rewrite name_stage_run.
  - rewrite name_stage_skip by assumption. simpl. now rewrite app_nil_r.
Qed.

(** The contact category, stage by stage. *)
Lemma check_contact_run U P F W fmt lead tr phone_e164 :
  normalize_phone U P (dict_get lead "phone" (PStr []))
                  (dict_get lead "country" (PStr [])) = Ok phone_e164 ->
  let email := dict_get lead "email" (PStr []) in
  let first_name := dict_get lead "first_name" (PStr []) in
  let last_name := dict_get lead "last_name" (PStr []) in
  let email_res := email_results W email tr in
  let tr1 := tr ++ email_events email in
  let after_exact := exact_outcome W phone_e164 email_res tr1 in
  let tr2 := tr1 ++ exact_events phone_e164 email_res in
  check_contact_duplicates U P F W fmt lead tr
  = (let? after_name :=
       fst (name_stage U F W first_name last_name after_exact tr2) in
     contact_result fmt (fst after_name) (snd after_name),
     tr2 ++ name_events first_name last_name after_exact).
Proof.
  intros Hph. cbv zeta.
  unfold check_contact_duplicates, bind, lift at 1. rewrite Hph.
  rewrite search_email_run, exact_stage_run.
  rewrite <- name_stage_trace with (U := U) (F := F) (W := W).
  destruct (name_stage U F W _ _ _ _) as [[an |] tr3]; reflexivity.
Qed.

Lemma name_stage_result U F W first_name last_name after_exact tr after_name :
  fst (name_stage U F W first_name last_name after_exact tr) = Ok after_name ->
  after_name = after_exact
  \/ exists contact, after_name = (PList [contact], Some ByName).
Proof.
  destruct (name_wanted first_name last_name after_exact) eqn:E.
  - rewrite name_stage_run by assumption. simpl.
    destruct (truthy _); [| intros [= <-]; auto].
    destruct (py_iter _) as [items |]; simpl; [| discriminate].
    destruct (name_loop U F first_name last_name items) as [[c |] |];
      simpl; intros [= <-]; eauto.
  - rewrite name_stage_skip by assumption. simpl. intros [= <-]. auto.
Qed.

Lemma contact_result_found fmt contact_results mt m :
  contact_result fmt contact_results mt = Ok (Found m) ->
  truthy contact_results = true /\ match_type m = mt.
Proof.
  unfold contact_result.
  destruct (truthy contact_results); [| discriminate].
  destruct (py_index0 contact_results) as [c |]; simpl; [| discriminate].
  destruct (py_get c "properties" _) as [props |]; simpl; [| discriminate].
  destruct (py_get c "id" _); simpl; [| discriminate].
  destruct (py_get props "email" _); simpl; [| discriminate].
  destruct (py_get props "phone" _); simpl; [| discriminate].
  destruct (py_get props "firstname" _); simpl; [| discriminate].
  destruct (py_get props "lastname" _); simpl; [| discriminate].
  intros [= <-]. auto.
Qed.

Lemma eq_str_nan : eq_str (PStr (lit "nan")) (lit "nan") = true.
Proof. reflexivity. Qed.

Lemma dict_get_insert_ne (lead : gmap string pyval) k k' v dflt :
  k <> k' -> dict_get (<[k := v]> lead) k' dflt = dict_get lead k' dflt.
Proof. intros H. unfold dict_get. now rewrite lookup_insert_ne. Qed.

Lemma dict_get_insert_eq (lead : gmap string pyval) k v dflt :
  dict_get (<[k := v]> lead) k dflt = v.
Proof. unfold dict_get. now rewrite lookup_insert_eq. Qed.

Lemma dict_get_some (lead : gmap string pyval) k v dflt :
  lead !! k = Some v -> dict_get lead k dflt = v.
Proof. unfold dict_get. now intros ->. Qed.

(** C10: for the email ["nan"] the exact lookup returns the empty
    list and asks nothing, as for the empty email; the contact
    category of such a lead behaves as for the same lead with an empty
    email, asks no email question, goes on with the phone and name
    stages on an empty result, and a match it finds is by phone or by
    name. *)
Theorem nan_email_not_looked_up (U : unicode) (P : phonelib) (F : fuzzlib)
    (W : world) (fmt : pyval -> pystr) (tr : trace) :
  search_contacts_by_email W (PStr (lit "nan")) tr = (Ok (PList []), tr)
  /\ search_contacts_by_email W (PStr []) tr = (Ok (PList []), tr)
  /\ forall lead : gmap string pyval,
       lead !! "email" = Some (PStr (lit "nan")) ->
       check_contact_duplicates U P F W fmt lead tr
       = check_contact_duplicates U P F W fmt (<["email" := PStr []]> lead) tr
       /\ (forall phone_e164,
             normalize_phone U P (dict_get lead "phone" (PStr []))
               (dict_get lead "country" (PStr [])) = Ok phone_e164 ->
             check_contact_duplicates U P F W fmt lead tr
             = (let! after_exact := exact_stage W phone_e164 (PList []) in
                let! after_name :=
                  name_stage U F W (dict_get lead "first_name" (PStr []))
                    (dict_get lead "last_name" (PStr [])) after_exact in
                lift (contact_result fmt (fst after_name) (snd after_name)))
                 tr)
       /\ (forall evs v,
             snd (check_contact_duplicates U P F W fmt lead tr) = tr ++ evs ->
             ~ In (email_query v) evs)
       /\ (forall m tr',
             check_contact_duplicates U P F W fmt lead tr = (Ok (Found m), tr') ->
             match_type m = Some ByPhone \/ match_type m = Some ByName).
Proof.
  split; [| split].
  - reflexivity.
  - reflexivity.
  - intros lead Hemail.
    pose proof (dict_get_some lead "email" _ (PStr []) Hemail) as He.
    destruct (normalize_phone_returns U P (dict_get lead "phone" (PStr []))
                (dict_get lead "country" (PStr []))) as [ph Hph].
    pose proof (check_contact_run U P F W fmt lead tr ph Hph) as Hrun.
    cbv zeta in Hrun. rewrite He in Hrun.
    change (email_results W (PStr (lit "nan")) tr) with (PList []) in Hrun.
    change (email_events (PStr (lit "nan"))) with (@nil event) in Hrun.
    rewrite app_nil_r in Hrun.
    split; [| split; [| split]].
    + rewrite Hrun.
      rewrite (check_contact_run U P F W fmt (<["email" := PStr []]> lead) tr ph).
      * cbv zeta. rewrite dict_get_insert_eq.
        rewrite !dict_get_insert_ne by discriminate.
        change (email_results W (PStr []) tr) with (PList []).
        change (email_events (PStr [])) with (@nil event).
        now rewrite app_nil_r.
      * now rewrite !dict_get_insert_ne by discriminate.
    + intros ph' Hph'. rewrite Hph in Hph'. injection Hph' as <-.
      unfold check_contact_duplicates, bind, lift at 1.
      now rewrite Hph, He.
    + intros evs v Hevs Hin. rewrite Hrun in Hevs. simpl in Hevs.
      rewrite <- app_assoc in Hevs. apply app_inv_head in Hevs. subst evs.
      apply in_app_or in Hin as [Hin | Hin].
      * unfold exact_events, phone_events in Hin. simpl in Hin.
        destruct (truthy (opt_str ph)); simpl in Hin; [| easy].
        destruct Hin as [Hin | []]. discriminate Hin.
      * unfold name_events in Hin. destruct (name_wanted _ _ _); [| easy].
        destruct Hin as [Hin | []]. unfold name_query, name_filters in Hin.
        destruct (truthy (dict_get lead "first_name" _)),
                 (truthy (dict_get lead "last_name" _)); discriminate Hin.
    + intros m tr' Hm. rewrite Hrun in Hm. injection Hm as Hm _.
      destruct (fst (name_stage _ _ _ _ _ _ _)) as [an |] eqn:Ean;
        simpl in Hm; [| discriminate].
      apply contact_result_found in Hm as [Ht Hm].
      apply name_stage_result in Ean as [-> | [c ->]]; [| now right].
      left. rewrite Hm. revert Ht. unfold exact_outcome. simpl.
      destruct (truthy (opt_str ph)); simpl; [| discriminate].
      now intros ->.
Qed.

(** ** The directory category without an adapter *)

(** C8: without a directory adapter the directory category returns
    not-found, asks nothing and does not raise; the same holds when
    the lead has no property name; and there is no adapter as soon as
    the token or the base is missing. *)
Theorem directory_unconfigured (U : unicode) (F : fuzzlib) (W : world)
    (lead : gmap string pyval) (tr : trace) :
  (forall self, airtable self = None ->
     check_alohacamp_duplicates U F W self lead tr = (Ok NotFound, tr))
  /\ (forall self,
        truthy (dict_get lead "property_name" (PStr [])) = false ->
        check_alohacamp_duplicates U F W self lead tr = (Ok NotFound, tr))
  /\ (forall airtable_token airtable_base,
        truthy airtable_token = false \/ truthy airtable_base = false ->
        airtable (new_checker airtable_token airtable_base) = None).
Proof.
  split; [| split].
  - intros self H. unfold check_alohacamp_duplicates. now rewrite H.
  - intros self H. unfold check_alohacamp_duplicates.
    destruct (airtable self); [| reflexivity]. now rewrite H.
  - intros tok base [H | H]; unfold new_checker; simpl; rewrite H;
      [reflexivity | now rewrite andb_false_r].
Qed.

(** ** The verdict and the update record *)

Ltac absurd_found :=
  match goal with
  | H : true = false |- _ => discriminate H
  | H : false = true |- _ => discriminate H
  end.

Lemma process_lead_run U P F W fmt self lead tr t1 t2 t3 cc dc ac :
  check_contact_duplicates U P F W fmt lead tr = (Ok cc, t1) ->
  check_deal_duplicates U F W lead t1 = (Ok dc, t2) ->
  check_alohacamp_duplicates U F W self lead t2 = (Ok ac, t3) ->
  process_lead U P F W fmt self lead tr
  = (Ok (update_data_of cc dc ac (now_isoformat W t3)), t3).
Proof.
  intros Hc Hd Ha. unfold process_lead, bind, now, ret.
  now rewrite Hc, Hd, Ha.
Qed.

Lemma process_lead_inv U P F W fmt self lead tr ud tr' :
  process_lead U P F W fmt self lead tr = (Ok ud, tr') ->
  exists cc dc ac t1 t2,
    check_contact_duplicates U P F W fmt lead tr = (Ok cc, t1)
    /\ check_deal_duplicates U F W lead t1 = (Ok dc, t2)
    /\ check_alohacamp_duplicates U F W self lead t2 = (Ok ac, tr')
    /\ ud = update_data_of cc dc ac (now_isoformat W tr').
Proof.
  unfold process_lead, bind, now, ret.
  destruct (check_contact_duplicates U P F W fmt lead tr)
    as [[cc |] t1] eqn:Hc; [| discriminate].
  destruct (check_deal_duplicates U F W lead t1)
    as [[dc |] t2] eqn:Hd; [| discriminate].
  destruct (check_alohacamp_duplicates U F W self lead t2)
    as [[ac |] t3] eqn:Ha; [| discriminate].
  intros [= <- <-]. exists cc, dc, ac, t1, t2. auto.
Qed.

Lemma update_data_verdict cc dc ac stamp :
  verdict_law cc dc ac (update_data_of cc dc ac stamp).
Proof.
  destruct cc as [| c], dc as [| d], ac as [| a]; cbn [found];
    unfold verdict_law, verdict_is;
    (split; [| split; [| split; [| split; [| split]]]]);
    try (intros; absurd_found);
    try (intros; repeat split; vm_compute; reflexivity);
    try (vm_compute; intros; discriminate).
  all: intros _.
  all: try (left; repeat split; vm_compute; reflexivity).
  all: try (right; left; repeat split; vm_compute; reflexivity).
  all: try (right; right; repeat split; vm_compute; reflexivity).
Qed.

Lemma update_data_linkage cc dc ac stamp :
  linkage_law cc dc ac (update_data_of cc dc ac stamp).
Proof.
  unfold linkage_law. split; [| split; [| split]].
  - intros c ->. destruct dc, ac; repeat split; vm_compute; reflexivity.
  - intros d ->. destruct cc, ac; repeat split; vm_compute; reflexivity.
  - intros a ->. destruct cc, dc; repeat split; vm_compute; reflexivity.
  - destruct cc, dc, ac; vm_compute; reflexivity.
Qed.

(** C1: the verdict of [process_lead] follows the priority contact,
    deal, directory.  When the three categories have answered,
    [process_lead] returns an update record; and every update record
    it returns comes from three answers and carries their verdict: a
    contact match gives duplicate, contact_duplicate and a follow-up
    whatever the other two found; otherwise a deal match gives
    duplicate, deal_exists, no follow-up; otherwise a directory match
    gives duplicate, alohacamp_exists, no follow-up; otherwise unique,
    new_lead and a follow-up.  A unique status always comes with
    new_lead and a follow-up, a duplicate status with one of the three
    other reasons. *)
Theorem verdict_priority (U : unicode) (P : phonelib) (F : fuzzlib)
    (W : world) (fmt : pyval -> pystr) (self : HubSpotDuplicateChecker)
    (lead : gmap string pyval) (tr : trace) :
  (forall cc dc ac t1 t2 t3,
     check_contact_duplicates U P F W fmt lead tr = (Ok cc, t1) ->
     check_deal_duplicates U F W lead t1 = (Ok dc, t2) ->
     check_alohacamp_duplicates U F W self lead t2 = (Ok ac, t3) ->
     exists ud,
       process_lead U P F W fmt self lead tr = (Ok ud, t3)
       /\ verdict_law cc dc ac ud)
  /\ (forall ud tr',
        process_lead U P F W fmt self lead tr = (Ok ud, tr') ->
        exists cc dc ac t1 t2,
          check_contact_duplicates U P F W fmt lead tr = (Ok cc, t1)
          /\ check_deal_duplicates U F W lead t1 = (Ok dc, t2)
          /\ check_alohacamp_duplicates U F W self lead t2 = (Ok ac, tr')
          /\ verdict_law cc dc ac ud).
Proof.
  split.
  - intros cc dc ac t1 t2 t3 Hc Hd Ha. eexists.
    split; [eapply process_lead_run; eassumption |].
    apply update_data_verdict.
  - intros ud tr' Hrun.
    destruct (process_lead_inv _ _ _ _ _ _ _ _ _ _ Hrun)
      as (cc & dc & ac & t1 & t2 & Hc & Hd & Ha & ->).
    exists cc, dc, ac, t1, t2. auto using update_data_verdict.
Qed.

(** C7: every update record that [process_lead] returns carries the
    linkage fields of each category that found a match, whichever of
    them gave the reason: the five contact fields, the three deal
    fields, the three directory fields; [alohacamp_exists_2] is always
    written, with the directory's found state; and this record is the
    one sent to the store for the lead.  When the three categories
    have answered, [process_lead] returns such a record. *)
Theorem linkage_fields_written (U : unicode) (P : phonelib) (F : fuzzlib)
    (W : world) (fmt : pyval -> pystr) (self : HubSpotDuplicateChecker)
    (lead : gmap string pyval) (tr : trace) :
  (forall cc dc ac t1 t2 t3,
     check_contact_duplicates U P F W fmt lead tr = (Ok cc, t1) ->
     check_deal_duplicates U F W lead t1 = (Ok dc, t2) ->
     check_alohacamp_duplicates U F W self lead t2 = (Ok ac, t3) ->
     exists ud,
       process_lead U P F W fmt self lead tr = (Ok ud, t3)
       /\ linkage_law cc dc ac ud)
  /\ (forall ud tr',
        process_lead U P F W fmt self lead tr = (Ok ud, tr') ->
        (exists cc dc ac t1 t2,
           check_contact_duplicates U P F W fmt lead tr = (Ok cc, t1)
           /\ check_deal_duplicates U F W lead t1 = (Ok dc, t2)
           /\ check_alohacamp_duplicates U F W self lead t2 = (Ok ac, tr')
           /\ linkage_law cc dc ac ud)
        /\ (forall id, lead !! "id" = Some id ->
            snd (process_one U P F W fmt self lead tr)
            = tr' ++ [SupabaseUpdate id ud])).
Proof.
  split.
  - intros cc dc ac t1 t2 t3 Hc Hd Ha. eexists.
    split; [eapply process_lead_run; eassumption |].
    apply update_data_linkage.
  - intros ud tr' Hrun. split.
    + destruct (process_lead_inv _ _ _ _ _ _ _ _ _ _ Hrun)
        as (cc & dc & ac & t1 & t2 & Hc & Hd & Ha & ->).
      exists cc, dc, ac, t1, t2. auto using update_data_linkage.
    + intros id Hid. unfold process_one, bind at 1. rewrite Hrun.
      unfold bind, lift, lead_id, request, ret. rewrite Hid.
      now destruct (respond W _ tr').
Qed.

(** ** The best-match categories *)

Lemma score_ge_iff a b : score_ge a b = true <-> (b <= a)%Q.
Proof. unfold score_ge. apply Qle_bool_iff. Qed.

Lemma score_gt_iff a b : score_gt a b = true <-> (b < a)%Q.
Proof.
  unfold score_gt. rewrite negb_true_iff. split; intros H.
  - apply Qnot_le_lt. intros Hle. apply Qle_bool_iff in Hle. congruence.
  - apply not_true_is_false. intros Hle. apply Qle_bool_iff in Hle.
    exact (Qlt_not_le _ _ H Hle).
Qed.

Lemma score_gt_false a b : score_gt a b = false <-> (a <= b)%Q.
Proof.
  unfold score_gt. rewrite negb_false_iff. apply Qle_bool_iff.
Qed.

Lemma first_max_bound scored c s :
  first_max scored c s -> Forall (fun x => (snd x <= s)%Q) scored.
Proof.
  intros (pre & post & -> & Hpre & Hpost).
  apply Forall_app. split.
  - eapply Forall_impl; [exact Hpre |]. intros x Hx. now apply Qlt_le_weak.
  - constructor; [apply Qle_refl | exact Hpost].
Qed.

Lemma first_max_in scored c s : first_max scored c s -> In (c, s) scored.
Proof.
  intros (pre & post & -> & _). apply in_or_app. right. now left.
Qed.

Lemma first_max_cons_head c s rest :
  Forall (fun x => (snd x <= s)%Q) rest -> first_max ((c, s) :: rest) c s.
Proof. intros H. exists [], rest. repeat split; auto. Qed.

Lemma first_max_cons_tail x rest c s :
  (snd x < s)%Q -> first_max rest c s -> first_max (x :: rest) c s.
Proof.
  intros Hx (pre & post & -> & Hpre & Hpost).
  exists (x :: pre), post. repeat split; auto.
Qed.

Lemma first_max_exists scored :
  scored <> [] -> exists c s, first_max scored c s.
Proof.
  induction scored as [| [c0 s0] rest IH]; [easy |]. intros _.
  destruct rest as [| y rest'].
  - exists c0, s0. now apply first_max_cons_head.
  - destruct IH as (c & s & Hm); [easy |].
    destruct (Qlt_le_dec s0 s) as [Hlt | Hle].
    + exists c, s. now apply first_max_cons_tail.
    + exists c0, s0. apply first_max_cons_head.
      eapply Forall_impl; [exact (first_max_bound _ _ _ Hm) |].
      intros x Hx. simpl in Hx. eapply Qle_trans; eassumption.
Qed.

(** The loop keeps the first best candidate that beats the initial
    score, and the initial pair when none does. *)
Lemma best_loop_spec U F holder field pn scored : forall bm bs,
  Forall (fun cs => property_score U F holder field pn (fst cs)
                    = Ok (snd cs)) scored ->
  (Forall (fun x => (snd x <= bs)%Q) scored
   /\ best_loop (property_score U F holder field pn) (map fst scored) bm bs
      = Ok (bm, bs))
  \/ (exists c s,
        first_max scored c s /\ (bs < s)%Q
        /\ best_loop (property_score U F holder field pn) (map fst scored)
             bm bs = Ok (Some c, s)).
Proof.
  induction scored as [| [c0 s0] rest IH]; intros bm bs H.
  - left. split; [constructor | reflexivity].
  - inversion H as [| ? ? H0 Hrest]; subst. simpl in H0.
    simpl. rewrite H0. simpl.
    destruct (score_gt s0 bs) eqn:E.
    + apply score_gt_iff in E.
      destruct (IH (Some c0) s0 Hrest) as [[Hall ->] | (c & s & Hm & Hlt & ->)].
      * right. exists c0, s0. auto using first_max_cons_head.
      * right. exists c, s. repeat split.
        -- now apply first_max_cons_tail.
        -- eapply Qlt_trans; eassumption.
    + apply score_gt_false in E.
      destruct (IH bm bs Hrest) as [[Hall ->] | (c & s & Hm & Hlt & ->)].
      * left. split; [| reflexivity]. constructor; assumption.
      * right. exists c, s. repeat split; [| assumption].
        apply first_max_cons_tail; [| assumption].
        simpl. eapply Qle_lt_trans; eassumption.
Qed.

Lemma property_score_dict U F holder field pn c s :
  property_score U F holder field pn c = Ok s ->
  exists d props,
    c = PDict d
    /\ py_get c holder (PDict ∅) = Ok (PDict props).
Proof.
  unfold property_score. destruct c; simpl; try discriminate.
  destruct (default (PDict ∅) (d !! holder)) eqn:E; simpl; try discriminate.
  intros _. eauto.
Qed.

Lemma deal_result_run U F pn c s0 s :
  truthy c = true ->
  property_score U F "properties" "dealname" pn c = Ok s0 ->
  exists v n,
    py_get c "id" PNone = Ok v
    /\ deal_result (Some c) s
       = Ok (if score_ge s 70
             then Found {| deal_id := v; deal_name := n; deal_score := s |}
             else NotFound).
Proof.
  intros Ht Hs.
  destruct (property_score_dict _ _ _ _ _ _ _ Hs) as (d & props & -> & Hp).
  unfold deal_result. rewrite Ht, Hp. simpl.
  exists (default PNone (d !! "id")), (default (PStr []) (props !! "dealname")).
  split; [reflexivity |]. now destruct (score_ge s 70).
Qed.

Lemma alohacamp_result_run U F pn c s0 s :
  truthy c = true ->
  property_score U F "fields" "Name" pn c = Ok s0 ->
  exists v n,
    py_get c "id" PNone = Ok v
    /\ alohacamp_result (Some c) s
       = Ok (if score_ge s 70
             then Found {| match_id := v; match_name := n; score := s |}
             else NotFound).
Proof.
  intros Ht Hs.
  destruct (property_score_dict _ _ _ _ _ _ _ Hs) as (d & props & -> & Hp).
  unfold alohacamp_result. rewrite Ht, Hp. simpl.
  exists (default PNone (d !! "id")),
         (default (PStr []) (props !! "Property Name")).
  split; [reflexivity |]. now destruct (score_ge s 70).
Qed.

(** From what the loop and the threshold test leave to the law. *)
Lemma best_match_law_intro {A} scored (r : check A) score_of_match id_of :
  scored <> [] ->
  (Forall (fun x => (snd x <= 0)%Q) scored /\ r = NotFound)
  \/ (exists c s,
        first_max scored c s
        /\ (((s < 70)%Q /\ r = NotFound)
            \/ ((70 <= s)%Q
                /\ exists m, r = Found m /\ score_of_match m = s
                             /\ py_get c "id" PNone = Ok (id_of m)))) ->
  best_match_law scored r score_of_match id_of.
Proof.
  intros Hne H.
  assert (Hiff : forall c s, first_max scored c s ->
                   (found r = true <-> (70 <= s)%Q)).
  { intros c' s' Hm'. pose proof (first_max_bound _ _ _ Hm') as Hb'.
    rewrite Forall_forall in Hb'.
    destruct H as [[Hall ->] | (c & s & Hm & Hr)].
    - rewrite Forall_forall in Hall.
      pose proof (Hall _ (proj2 (list_elem_of_In _ _) (first_max_in _ _ _ Hm'))) as H0.
      simpl in H0. simpl. split; [discriminate | intros; lra].
    - pose proof (first_max_bound _ _ _ Hm) as Hb.
      rewrite Forall_forall in Hb.
      pose proof (Hb _ (proj2 (list_elem_of_In _ _) (first_max_in _ _ _ Hm'))) as H1.
      pose proof (Hb' _ (proj2 (list_elem_of_In _ _) (first_max_in _ _ _ Hm))) as H2.
      simpl in H1, H2.
      destruct Hr as [[Hlt ->] | [Hge (m & -> & _)]]; simpl.
      + split; [discriminate | intros; lra].
      + split; [intros; lra | reflexivity]. }
  unfold best_match_law. split; [| split; [| split; [| split]]].
  - now apply first_max_exists.
  - exact Hiff.
  - intros m ->.
    destruct H as [[_ [=]] | (c & s & Hm & [[_ [=]] | [_ (m' & [= <-] & <- & Hid)]])].
    eauto.
  - intros c s Hm Hs. destruct r; [reflexivity |].
    assert (70 <= s)%Q by (now apply (Hiff c s Hm)). lra.
  - intros c s Hm Hs. apply (Hiff c s Hm). lra.
Qed.

Lemma search_deals_run W property_name city tr :
  truthy property_name = true ->
  search_deals_by_property_name W property_name city tr
  = (Ok (answer W (deals_query property_name) "results" tr),
     tr ++ [deals_query property_name]).
Proof.
  intros H. unfold search_deals_by_property_name. rewrite H. simpl.
  apply hubspot_search_run.
Qed.

Lemma search_properties_run W client name city tr :
  truthy (PStr name) = true ->
  search_properties W client (PStr name) city tr
  = (Ok (answer W (directory_query client name) "records" tr),
     tr ++ [directory_query client name]).
Proof.
  intros H. unfold search_properties. rewrite H.
  unfold try_catch, bind, lift, request, answer, directory_query, ret.
  cbn beta iota zeta delta [negb].
  destruct (respond W _ tr) as [data |]; [| reflexivity].
  destruct (py_get data "records" (PList [])); reflexivity.
Qed.

Lemma truthy_map_fst (scored : list (pyval * Q)) :
  scored <> [] -> truthy (PList (map fst scored)) = true.
Proof. destruct scored; [easy | reflexivity]. Qed.

Lemma scored_by_scores score_of scored :
  scored_by score_of scored ->
  Forall (fun cs => score_of (fst cs) = Ok (snd cs)) scored.
Proof.
  intros H. eapply Forall_impl; [exact H |]. now intros x [_ Hx].
Qed.

Lemma scored_by_in score_of scored c s :
  scored_by score_of scored -> first_max scored c s ->
  truthy c = true /\ score_of c = Ok s.
Proof.
  intros H Hm. unfold scored_by in H. rewrite Forall_forall in H.
  exact (H _ (proj2 (list_elem_of_In _ _) (first_max_in _ _ _ Hm))).
Qed.

Lemma check_deal_law U F W lead tr scored :
  let property_name := dict_get lead "property_name" (PStr []) in
  scored <> [] ->
  truthy property_name = true ->
  answer W (deals_query property_name) "results" tr = PList (map fst scored) ->
  scored_by (property_score U F "properties" "dealname"
               (normalize_text U property_name)) scored ->
  exists r,
    check_deal_duplicates U F W lead tr
    = (Ok r, tr ++ [deals_query property_name])
    /\ best_match_law scored r deal_score deal_id.
Proof.
  intros pn Hne Hpn Hans Hsc.
  unfold check_deal_duplicates. fold pn. rewrite Hpn.
  cbn beta iota delta [negb]. unfold bind at 1. rewrite (search_deals_run W pn _ tr Hpn), Hans.
  rewrite (truthy_map_fst scored Hne).
  unfold bind, lift. cbn beta iota delta [py_iter].
  destruct (best_loop_spec U F "properties" "dealname" (normalize_text U pn)
              scored None 0%Q (scored_by_scores _ _ Hsc))
    as [[Hall ->] | (c & s & Hm & Hpos & ->)]; simpl fst; simpl snd.
  - exists NotFound. split; [reflexivity |].
    apply best_match_law_intro; auto.
  - destruct (scored_by_in _ _ _ _ Hsc Hm) as [Ht Hs].
    destruct (deal_result_run U F _ c s s Ht Hs) as (v & n & Hid & ->).
    eexists. split; [reflexivity |].
    apply best_match_law_intro; [assumption |]. right. exists c, s.
    split; [assumption |].
    destruct (score_ge s 70) eqn:E.
    + right. apply score_ge_iff in E. split; [assumption |]. eauto.
    + left. split; [| reflexivity].
      apply Qnot_le_lt. intros Hle. apply score_ge_iff in Hle. congruence.
Qed.

Lemma check_directory_law U F W self client lead tr name scored :
  airtable self = Some client ->
  dict_get lead "property_name" (PStr []) = PStr name ->
  scored <> [] ->
  truthy (PStr name) = true ->
  answer W (directory_query client name) "records" tr
  = PList (map fst scored) ->
  scored_by (property_score U F "fields" "Name"
               (normalize_text U (PStr name))) scored ->
  exists r,
    check_alohacamp_duplicates U F W self lead tr
    = (Ok r, tr ++ [directory_query client name])
    /\ best_match_law scored r score match_id.
Proof.
  intros Hself Hname Hne Hpn Hans Hsc.
  unfold check_alohacamp_duplicates. rewrite Hself, Hname, Hpn.
  cbn beta iota delta [negb]. unfold bind at 1. rewrite (search_properties_run W client name _ tr Hpn), Hans.
  rewrite (truthy_map_fst scored Hne).
  unfold bind, lift. cbn beta iota delta [py_iter].
  destruct (best_loop_spec U F "fields" "Name" (normalize_text U (PStr name))
              scored None 0%Q (scored_by_scores _ _ Hsc))
    as [[Hall ->] | (c & s & Hm & Hpos & ->)]; simpl fst; simpl snd.
  - exists NotFound. split; [reflexivity |].
    apply best_match_law_intro; auto.
  - destruct (scored_by_in _ _ _ _ Hsc Hm) as [Ht Hs].
    destruct (alohacamp_result_run U F _ c s s Ht Hs) as (v & n & Hid & ->).
    eexists. split; [reflexivity |].
    apply best_match_law_intro; [assumption |]. right. exists c, s.
    split; [assumption |].
    destruct (score_ge s 70) eqn:E.
    + right. apply score_ge_iff in E. split; [assumption |]. eauto.
    + left. split; [| reflexivity].
      apply Qnot_le_lt. intros Hle. apply score_ge_iff in Hle. congruence.
Qed.

(** C3: in the deal and in the directory category, when the search
    answers a non-empty list of candidate records, the category
    reports found exactly when the best score is at least 70 (not
    found at 69, found at 70); the match is the first candidate, in
    the order of the answer, that has the highest score, and its
    score and identifier are in the result. *)
Theorem best_match_threshold (U : unicode) (F : fuzzlib) (W : world)
    (lead : gmap string pyval) (tr : trace) (scored : list (pyval * Q)) :
  scored <> [] ->
  truthy (dict_get lead "property_name" (PStr [])) = true ->
  (answer W (deals_query (dict_get lead "property_name" (PStr [])))
     "results" tr = PList (map fst scored) ->
   scored_by (property_score U F "properties" "dealname"
                (normalize_text U (dict_get lead "property_name" (PStr []))))
             scored ->
   exists r,
     check_deal_duplicates U F W lead tr
     = (Ok r, tr ++ [deals_query (dict_get lead "property_name" (PStr []))])
     /\ best_match_law scored r deal_score deal_id)
  /\ (forall self client name,
        airtable self = Some client ->
        dict_get lead "property_name" (PStr []) = PStr name ->
        answer W (directory_query client name) "records" tr
        = PList (map fst scored) ->
        scored_by (property_score U F "fields" "Name"
                     (normalize_text U (PStr name))) scored ->
        exists r,
          check_alohacamp_duplicates U F W self lead tr
          = (Ok r, tr ++ [directory_query client name])
          /\ best_match_law scored r score match_id).
Proof.
  intros Hne Hpn. split.
  - intros Hans Hsc. now apply check_deal_law.
  - intros self client name Hself Hname Hans Hsc.
    apply check_directory_law; try assumption. now rewrite <- Hname.
Qed.

(** ** The contact cascade *)

Lemma accepted_iff scores :
  score_ge (fst scores) 80 || score_ge (snd scores) 80 = true
  <-> accepted scores.
Proof.
  unfold accepted. rewrite orb_true_iff, !score_ge_iff. reflexivity.
Qed.

Lemma name_loop_first U F first_name last_name pre contact post scores :
  Forall (passed_over U F first_name last_name) pre ->
  name_scores U F first_name last_name contact = Ok scores ->
  accepted scores ->
  name_loop U F first_name last_name (pre ++ contact :: post)
  = Ok (Some contact).
Proof.
  intros Hpre Hs Hacc. induction Hpre as [| c pre (sc & Hc & Hrej) _ IH].
  - simpl. rewrite Hs. simpl.
    now rewrite (proj2 (accepted_iff scores) Hacc).
  - simpl. rewrite Hc. simpl.
    destruct (score_ge (fst sc) 80 || score_ge (snd sc) 80) eqn:E.
    + now apply accepted_iff in E.
    + exact IH.
Qed.

Lemma name_loop_none U F first_name last_name candidates :
  Forall (passed_over U F first_name last_name) candidates ->
  name_loop U F first_name last_name candidates = Ok None.
Proof.
  intros H. induction H as [| c rest (sc & Hc & Hrej) _ IH];
    [reflexivity |].
  simpl. rewrite Hc. simpl.
  destruct (score_ge (fst sc) 80 || score_ge (snd sc) 80) eqn:E.
  - now apply accepted_iff in E.
  - exact IH.
Qed.

Lemma name_scores_parts U F first_name last_name d props :
  py_get (PDict d) "properties" (PDict ∅) = Ok (PDict props) ->
  name_scores U F first_name last_name (PDict d)
  = Ok (part_score U F first_name (dict_get props "firstname" (PStr [])),
        part_score U F last_name (dict_get props "lastname" (PStr []))).
Proof.
  intros H. unfold name_scores. rewrite H. reflexivity.
Qed.

Lemma contact_result_first fmt d props rest mt :
  py_get (PDict d) "properties" (PDict ∅) = Ok (PDict props) ->
  exists m,
    contact_result fmt (PList (PDict d :: rest)) mt = Ok (Found m)
    /\ match_type m = mt
    /\ contact_id m = dict_get d "id" PNone
    /\ contact_email m = dict_get props "email" (PStr []).
Proof.
  intros H. unfold contact_result. simpl truthy. cbv iota.
  simpl py_index0. unfold obind at 1. rewrite H. simpl.
  eexists. split; [reflexivity |]. auto.
Qed.

Lemma exact_outcome_email W phone_e164 email_res tr :
  truthy email_res = true ->
  exact_outcome W phone_e164 email_res tr = (email_res, Some ByEmail).
Proof. unfold exact_outcome. now intros ->. Qed.

Lemma phone_results_asked W phone_e164 tr :
  truthy (phone_results W phone_e164 tr) = true ->
  truthy (opt_str phone_e164) = true.
Proof.
  unfold phone_results. destruct (truthy (opt_str phone_e164)); easy.
Qed.

Lemma exact_outcome_phone W phone_e164 email_res tr :
  truthy email_res = false ->
  truthy (phone_results W phone_e164 tr) = true ->
  exact_outcome W phone_e164 email_res tr
  = (phone_results W phone_e164 tr, Some ByPhone).
Proof.
  intros He Hp. unfold exact_outcome.
  now rewrite He, (phone_results_asked _ _ _ Hp), Hp.
Qed.

Lemma name_wanted_exact W phone_e164 email_res tr first_name last_name :
  name_wanted first_name last_name (exact_outcome W phone_e164 email_res tr)
  = negb (truthy email_res)
    && negb (truthy (phone_results W phone_e164 tr))
    && (truthy first_name || truthy last_name).
Proof.
  unfold name_wanted, exact_outcome, phone_results.
  destruct (truthy email_res) eqn:He; simpl; [now rewrite He |].
  destruct (truthy (opt_str phone_e164)); simpl; [reflexivity |].
  now rewrite He.
Qed.

Lemma name_query_not_exact first_name last_name prop v :
  prop = "email" \/ prop = "phone" ->
  name_query first_name last_name
  <> HubSpotSearch "contacts"
       {| filters := [ {| propertyName := prop; operator := "EQ";
                          value := v |} ];
          properties := contact_properties;
          limit := 10 |}.
Proof.
  intros _. unfold name_query. discriminate.
Qed.

Lemma in_exact_events ev phone_e164 email_res :
  In ev (exact_events phone_e164 email_res) ->
  truthy email_res = false
  /\ exists e, phone_e164 = Some e /\ ev = phone_query (PStr e).
Proof.
  unfold exact_events, phone_events.
  destruct (truthy email_res); [easy |].
  destruct phone_e164 as [e |]; simpl; [| easy].
  destruct e; simpl; [easy |]. intros [<- | []]. eauto.
Qed.

Lemma in_name_events ev W phone_e164 email_res tr first_name last_name :
  In ev (name_events first_name last_name
           (exact_outcome W phone_e164 email_res tr)) ->
  ev = name_query first_name last_name
  /\ truthy email_res = false
  /\ truthy (phone_results W phone_e164 tr) = false
  /\ truthy first_name || truthy last_name = true.
Proof.
  unfold name_events. rewrite name_wanted_exact.
  destruct (truthy email_res); [easy |].
  destruct (truthy (phone_results W phone_e164 tr)); [easy |].
  destruct (truthy first_name || truthy last_name); [| easy].
  simpl. intros [<- | []]. auto.
Qed.

Lemma in_email_events ev email :
  In ev (email_events email) ->
  ev = email_query email /\ usable_email email = true.
Proof.
  unfold email_events. destruct (usable_email email); [| easy].
  intros [<- | []]. auto.
Qed.

Lemma exact_outcome_nothing W phone_e164 email_res tr :
  truthy email_res = false ->
  truthy (phone_results W phone_e164 tr) = false ->
  truthy (fst (exact_outcome W phone_e164 email_res tr)) = false.
Proof.
  intros He Hp. unfold exact_outcome. rewrite He.
  destruct (truthy (opt_str phone_e164)); simpl; assumption.
Qed.

Lemma contact_result_nothing fmt contact_results mt :
  truthy contact_results = false ->
  contact_result fmt contact_results mt = Ok NotFound.
Proof. unfold contact_result. now intros ->. Qed.

(** C2: the contact category asks the email question first and stops
    on a hit; it asks the phone question only when the email lookup
    returned nothing and the phone was normalised, and stops on a hit;
    it asks the name question only when both returned nothing and the
    lead has a first or a last name.  In the name step a part scores
    0 unless both sides are non-empty; the first candidate in the
    order of the answer with a first-name or a last-name score of at
    least 80 is the match, by name; when no candidate reaches 80 the
    category is not-found; scores of 79 and 81 are accepted. *)
Theorem contact_cascade (U : unicode) (P : phonelib) (F : fuzzlib)
    (W : world) (fmt : pyval -> pystr) (lead : gmap string pyval)
    (tr : trace) (phone_e164 : option pystr) :
  normalize_phone U P (dict_get lead "phone" (PStr []))
                  (dict_get lead "country" (PStr [])) = Ok phone_e164 ->
  let email := dict_get lead "email" (PStr []) in
  let first_name := dict_get lead "first_name" (PStr []) in
  let last_name := dict_get lead "last_name" (PStr []) in
  let run := check_contact_duplicates U P F W fmt lead tr in
  let email_res := email_results W email tr in
  let tr1 := tr ++ email_events email in
  let phone_res := phone_results W phone_e164 tr1 in
  let tr2 := tr1 ++ exact_events phone_e164 email_res in
  exists evs,
    snd run = tr ++ evs
    /\ (usable_email email = true ->
        exists rest, evs = email_query email :: rest)
    /\ (truthy email_res = true ->
        evs = [email_query email]
        /\ fst run = contact_result fmt email_res (Some ByEmail))
    /\ (forall v, In (phone_query v) evs ->
        truthy email_res = false
        /\ exists e, phone_e164 = Some e /\ v = PStr e)
    /\ (truthy email_res = false -> truthy phone_res = true ->
        fst run = contact_result fmt phone_res (Some ByPhone)
        /\ forall a b, ~ In (name_query a b) evs)
    /\ (forall a b, In (name_query a b) evs ->
        truthy email_res = false
        /\ truthy phone_res = false
        /\ truthy first_name || truthy last_name = true)
    /\ (truthy email_res = false -> truthy phone_res = false ->
        truthy first_name || truthy last_name = true ->
        In (name_query first_name last_name) evs
        /\ forall candidates,
             name_results_of W first_name last_name tr2 = PList candidates ->
             (forall pre contact post scores,
                candidates = pre ++ contact :: post ->
                Forall (passed_over U F first_name last_name) pre ->
                name_scores U F first_name last_name contact = Ok scores ->
                accepted scores ->
                fst run = contact_result fmt (PList [contact]) (Some ByName))
             /\ (Forall (passed_over U F first_name last_name) candidates ->
                 fst run = Ok NotFound))
    /\ (forall d props rest mt,
          py_get (PDict d) "properties" (PDict ∅) = Ok (PDict props) ->
          name_scores U F first_name last_name (PDict d)
          = Ok (part_score U F first_name
                  (dict_get props "firstname" (PStr [])),
                part_score U F last_name
                  (dict_get props "lastname" (PStr [])))
          /\ exists m,
               contact_result fmt (PList (PDict d :: rest)) mt = Ok (Found m)
               /\ match_type m = mt
               /\ contact_id m = dict_get d "id" PNone)
    /\ (forall a b, truthy a = false \/ truthy b = false ->
        part_score U F a b = 0%Q)
    /\ (forall contact rest scores,
          name_scores U F first_name last_name contact = Ok scores ->
          (fst scores == 79)%Q -> (snd scores == 81)%Q ->
          name_loop U F first_name last_name (contact :: rest)
          = Ok (Some contact)).
Proof.
  intros Hph email first_name last_name run email_res tr1 phone_res tr2.
  pose proof (check_contact_run U P F W fmt lead tr phone_e164 Hph) as Hrun.
  cbv zeta in Hrun.
  fold email first_name last_name email_res tr1 tr2 run in Hrun.
  set (after_exact := exact_outcome W phone_e164 email_res tr1) in *.
  exists (email_events email ++ exact_events phone_e164 email_res
          ++ name_events first_name last_name after_exact).
  assert (Hwanted : name_wanted first_name last_name after_exact
                    = negb (truthy email_res) && negb (truthy phone_res)
                      && (truthy first_name || truthy last_name))
    by apply name_wanted_exact.
  split; [| split; [| split; [| split; [| split; [| split;
    [| split; [| split; [| split]]]]]]]].
  - rewrite Hrun. simpl. unfold tr2, tr1. now rewrite <- !app_assoc.
  - intros Hu. unfold email_events. rewrite Hu. simpl. eauto.
  - intros He.
    assert (Hu : usable_email email = true).
    { unfold email_res, email_results in He.
      destruct (usable_email email); [reflexivity | discriminate He]. }
    unfold name_events. rewrite Hwanted, He. simpl.
    unfold exact_events. rewrite He. unfold email_events. rewrite Hu.
    split; [reflexivity |].
    rewrite Hrun. simpl fst.
    rewrite name_stage_skip by (rewrite Hwanted, He; reflexivity).
    simpl. unfold after_exact. now rewrite exact_outcome_email.
  - intros v Hin.
    apply in_app_or in Hin as [Hin | Hin];
      [| apply in_app_or in Hin as [Hin | Hin]].
    + apply in_email_events in Hin as [Hin _]. discriminate Hin.
    + apply in_exact_events in Hin as (He & e & -> & Hq).
      split; [assumption |]. exists e. split; [reflexivity |].
      now injection Hq.
    + apply in_name_events in Hin as (Hin & _).
      symmetry in Hin. now apply name_query_not_exact in Hin; [| right].
  - intros He Hp. split.
    + rewrite Hrun. simpl fst.
      rewrite name_stage_skip by (rewrite Hwanted, He, Hp; reflexivity).
      simpl. unfold after_exact. now rewrite exact_outcome_phone.
    + intros a b Hin.
      apply in_app_or in Hin as [Hin | Hin];
        [| apply in_app_or in Hin as [Hin | Hin]].
      * apply in_email_events in Hin as [Hin _].
        now apply name_query_not_exact in Hin; [| left].
      * apply in_exact_events in Hin as (_ & e & _ & Hq).
        now apply name_query_not_exact in Hq; [| right].
      * apply in_name_events in Hin as (_ & _ & Hp' & _).
        fold tr1 phone_res in Hp'. congruence.
  - intros a b Hin.
    apply in_app_or in Hin as [Hin | Hin];
      [| apply in_app_or in Hin as [Hin | Hin]].
    + apply in_email_events in Hin as [Hin _].
      now apply name_query_not_exact in Hin; [| left].
    + apply in_exact_events in Hin as (_ & e & _ & Hq).
      now apply name_query_not_exact in Hq; [| right].
    + apply in_name_events in Hin as (_ & He & Hp & Hn). auto.
  - intros He Hp Hn.
    assert (Hw : name_wanted first_name last_name after_exact = true)
      by (rewrite Hwanted, He, Hp, Hn; reflexivity).
    assert (Hnone : contact_result fmt (fst after_exact) (snd after_exact)
                    = Ok NotFound)
      by (apply contact_result_nothing, exact_outcome_nothing; assumption).
    split.
    + apply in_or_app. right. apply in_or_app. right.
      unfold name_events. rewrite Hw. now left.
    + intros candidates Hcands.
      rewrite Hrun. simpl fst. rewrite (name_stage_run _ _ _ _ _ _ _ Hw).
      simpl fst. rewrite Hcands. split.
      * intros pre contact post scores -> Hpre Hs Hacc.
        replace (truthy (PList (pre ++ contact :: post))) with true
          by (now destruct pre).
        simpl py_iter. unfold obind at 2.
        now rewrite (name_loop_first _ _ _ _ _ _ _ _ Hpre Hs Hacc).
      * intros Hall. destruct candidates as [| c rest]; simpl truthy.
        -- exact Hnone.
        -- simpl py_iter. unfold obind at 2.
           rewrite (name_loop_none _ _ _ _ _ Hall). exact Hnone.
  - intros d props rest mt Hp. split.
    + now apply name_scores_parts.
    + destruct (contact_result_first fmt d props rest mt Hp)
        as (m & Hm & Ht & Hid & _). eauto.
  - intros a b H. unfold part_score.
    destruct H as [-> | ->]; [reflexivity | now rewrite andb_false_r].
  - intros contact rest scores Hs H79 H81. simpl. rewrite Hs. simpl.
    replace (score_ge (snd scores) 80) with true;
      [now rewrite orb_true_r |].
    symmetry. apply score_ge_iff. lra.
Qed.

(** ** The batch driver *)

Lemma fetch_leads_batch_returns W batch_size start_id tr :
  exists leads tr0,
    fetch_leads_batch W batch_size start_id tr = (Ok leads, tr0).
Proof.
  unfold fetch_leads_batch, try_catch, bind, request, lift, ret.
  destruct (respond W _ tr) as [all_leads |]; eauto.
  destruct (py_iter all_leads) as [rows |]; eauto.
  destruct (eligible_leads rows); eauto.
Qed.

Lemma batch_loop_run U P F W fmt self leads : forall updated errors tr,
  batch_loop U P F W fmt self leads updated errors tr
  = (Ok (updated + count Updated (fst (attempts U P F W fmt self leads tr)),
         errors + count Failed (fst (attempts U P F W fmt self leads tr))),
     snd (attempts U P F W fmt self leads tr)).
Proof.
  induction leads as [| lead rest IH]; intros updated errors tr.
  - simpl. unfold ret. now rewrite !Z.add_0_r.
  - simpl. unfold bind at 1, try_catch, bind at 1, attempt, ret.
    destruct (process_one U P F W fmt self lead tr) as [[[|] | e] tr'];
      simpl; rewrite IH; simpl; do 3 f_equal; lia.
Qed.

Lemma attempts_length U P F W fmt self leads : forall tr,
  length (fst (attempts U P F W fmt self leads tr)) = length leads.
Proof.
  induction leads as [| lead rest IH]; intros tr; simpl; [reflexivity |].
  now rewrite IH.
Qed.

Lemma attempts_app U P F W fmt self pre post : forall tr,
  attempts U P F W fmt self (pre ++ post) tr
  = (fst (attempts U P F W fmt self pre tr)
     ++ fst (attempts U P F W fmt self post
               (snd (attempts U P F W fmt self pre tr))),
     snd (attempts U P F W fmt self post
            (snd (attempts U P F W fmt self pre tr)))).
Proof.
  induction pre as [| lead rest IH]; intros tr; simpl.
  - now destruct (attempts U P F W fmt self post tr).
  - now rewrite IH.
Qed.

(** C9: [process_batch] never raises.  With no eligible lead it
    returns the error record; otherwise it returns the summary with
    the number of leads fetched, the number of leads whose row was
    updated and the number of leads whose processing or write raised.
    Every fetched lead is attempted, each after the ones before it,
    whether or not those failed; an exception in one attempt is
    counted as that lead's failure. *)
Theorem batch_continues_after_failure (U : unicode) (P : phonelib)
    (F : fuzzlib) (W : world) (fmt : pyval -> pystr)
    (self : HubSpotDuplicateChecker) (batch_size : Z) (start_id : pyval)
    (tr : trace) :
  exists leads tr0,
    fetch_leads_batch W batch_size start_id tr = (Ok leads, tr0)
    /\ (leads = [] ->
        process_batch U P F W fmt self batch_size start_id tr
        = (Ok (BatchError (lit "No leads found to process")), tr0))
    /\ (leads <> [] ->
        process_batch U P F W fmt self batch_size start_id tr
        = (Ok (BatchSummary
                 (Z.of_nat (length leads))
                 (count Updated (fst (attempts U P F W fmt self leads tr0)))
                 (count Failed (fst (attempts U P F W fmt self leads tr0)))),
           snd (attempts U P F W fmt self leads tr0)))
    /\ length (fst (attempts U P F W fmt self leads tr0)) = length leads
    /\ (forall pre lead post,
          leads = pre ++ lead :: post ->
          let before := attempts U P F W fmt self pre tr0 in
          let this := attempt U P F W fmt self lead (snd before) in
          let after := attempts U P F W fmt self post (snd this) in
          attempts U P F W fmt self leads tr0
          = (fst before ++ fst this :: fst after, snd after))
    /\ (forall lead t e t',
          process_one U P F W fmt self lead t = (Raise e, t') ->
          attempt U P F W fmt self lead t = (Failed, t')).
Proof.
  destruct (fetch_leads_batch_returns W batch_size start_id tr)
    as (leads & tr0 & Hfetch).
  exists leads, tr0. split; [exact Hfetch |].
  split; [| split; [| split; [| split]]].
  - intros ->. unfold process_batch, bind. now rewrite Hfetch.
  - intros Hne. unfold process_batch, bind at 1. rewrite Hfetch.
    destruct leads as [| lead rest]; [easy |].
    unfold bind. rewrite batch_loop_run. reflexivity.
  - apply attempts_length.
  - intros pre lead post ->. cbv zeta. rewrite attempts_app. reflexivity.
  - intros lead t e t' H. unfold attempt. now rewrite H.
Qed.

(** ** The properties at work in the demo world *)

Import Demo.

Lemma demo_not_upper c :
  norm_char c = true -> in_range 65 90 c = false.
Proof.
  unfold norm_char, is_az09, in_range, SPACE. intros H.
  apply not_true_is_false. intros Hu. bool_cases; lia.
Qed.

Lemma demo_not_e_acute c : norm_char c = true -> (c =? 233)%N = false.
Proof.
  unfold norm_char, is_az09, in_range, SPACE. intros H.
  apply not_true_is_false. intros Hu. bool_cases; lia.
Qed.

Lemma demo_not_mark c : norm_char c = true -> in_range 768 879 c = false.
Proof.
  unfold norm_char, is_az09, in_range, SPACE. intros H.
  apply not_true_is_false. intros Hu. bool_cases; lia.
Qed.

Lemma demo_unicode_ascii : unicode_ascii demo_unicode.
Proof.
  split; simpl.
  - induction s as [| c r IH]; simpl; [reflexivity |]. intros H.
    apply andb_true_iff in H as [Hc Hr].
    now rewrite (demo_not_upper c Hc), (IH Hr).
  - induction s as [| c r IH]; simpl; [reflexivity |]. intros H.
    apply andb_true_iff in H as [Hc Hr].
    now rewrite (demo_not_e_acute c Hc), (IH Hr).
  - intros c Hc. now rewrite (demo_not_mark c Hc).
Qed.

Lemma normalize_text_idempotent_witness :
  unicode_ascii demo_unicode
  /\ normalize_text demo_unicode (PStr sample_text) = lit "cafe deja"
  /\ normalize_text demo_unicode
       (PStr (normalize_text demo_unicode (PStr sample_text)))
     = normalize_text demo_unicode (PStr sample_text)
  /\ normalize_text demo_unicode (PInt 7) = [].
Proof.
  split; [exact demo_unicode_ascii |].
  split; [vm_compute; reflexivity |].
  destruct (normalize_text_idempotent demo_unicode demo_unicode_ascii)
    as (Hidem & _ & Hother).
  split; [exact (Hidem (PStr sample_text)) |].
  apply Hother. intros s. discriminate.
Defined.

Lemma normalize_phone_spec_witness :
  normalize_phone demo_unicode demo_phonelib (str " 123456789 ") (str "pl")
  = Ok (Some (lit "+48123456789"))
  /\ normalize_phone demo_unicode demo_phonelib (str "call me") (str "pl")
     = Ok None
  /\ normalize_phone demo_unicode demo_phonelib (str "   ") PNone = Ok None.
Proof.
  split; [| split].
  - apply (proj2 (proj2 (proj2 (proj2
             (normalize_phone_spec demo_unicode demo_phonelib
                (str " 123456789 ") (str "pl")))))).
    exists (lit " 123456789 "), (lit "48123456789").
    repeat split; try (vm_compute; reflexivity). vm_compute. discriminate.
  - apply (proj1 (proj2 (proj2 (proj2
             (normalize_phone_spec demo_unicode demo_phonelib
                (str "call me") (str "pl")))))
             (lit "call me") LibraryError); vm_compute; reflexivity.
  - apply (proj1 (proj2 (proj2
             (normalize_phone_spec demo_unicode demo_phonelib
                (str "   ") PNone))) (lit "   ")); vm_compute; reflexivity.
Defined.

Lemma nan_email_not_looked_up_witness :
  search_contacts_by_email demo_world (str "nan") [] = (Ok (PList []), [])
  /\ check_contact_duplicates demo_unicode demo_phonelib demo_fuzz demo_world
       demo_format lead_nan []
     = check_contact_duplicates demo_unicode demo_phonelib demo_fuzz
         demo_world demo_format (<["email" := PStr []]> lead_nan) []
  /\ exists m tr',
       check_contact_duplicates demo_unicode demo_phonelib demo_fuzz
         demo_world demo_format lead_nan [] = (Ok (Found m), tr')
       /\ contact_id m = str "101"
       /\ (match_type m = Some ByPhone \/ match_type m = Some ByName).
Proof.
  destruct (nan_email_not_looked_up demo_unicode demo_phonelib demo_fuzz
              demo_world demo_format []) as (Hnan & _ & Hlead).
  destruct (Hlead lead_nan eq_refl) as (Hsame & _ & _ & Hkind).
  split; [exact Hnan |]. split; [exact Hsame |].
  eexists _, _. split; [vm_compute; reflexivity |].
  split; [reflexivity |].
  eapply Hkind. vm_compute. reflexivity.
Defined.

Lemma directory_unconfigured_witness :
  airtable without_directory = None
  /\ check_alohacamp_duplicates demo_unicode demo_fuzz demo_world
       without_directory lead_known [] = (Ok NotFound, [])
  /\ check_alohacamp_duplicates demo_unicode demo_fuzz demo_world
       with_directory lead_new [] = (Ok NotFound, []).
Proof.
  destruct (directory_unconfigured demo_unicode demo_fuzz demo_world
              lead_known []) as (Hnone & _ & Hinit).
  destruct (directory_unconfigured demo_unicode demo_fuzz demo_world
              lead_new []) as (_ & Hname & _).
  split; [apply Hinit; left; reflexivity |].
  split; [apply Hnone; reflexivity | apply Hname; reflexivity].
Defined.

(** [run_to H m] computes the run [m] and records its value as [H]. *)
Ltac run_to H m :=
  let v := eval vm_compute in m in
  assert (H : m = v) by (vm_compute; reflexivity).

Ltac run_checks checker lead H1 H2 H3 :=
  run_to H1 (check_contact_duplicates demo_unicode demo_phonelib demo_fuzz
               demo_world demo_format lead []);
  match type of H1 with
  | _ = (_, ?t1) =>
      run_to H2 (check_deal_duplicates demo_unicode demo_fuzz demo_world
                   lead t1);
      match type of H2 with
      | _ = (_, ?t2) =>
          run_to H3 (check_alohacamp_duplicates demo_unicode demo_fuzz
                       demo_world checker lead t2)
      end
  end.

Lemma verdict_priority_witness :
  exists ud tr',
    process_lead demo_unicode demo_phonelib demo_fuzz demo_world demo_format
      with_directory lead_known [] = (Ok ud, tr')
    /\ found (fst_ok (check_deal_duplicates demo_unicode demo_fuzz demo_world
                        lead_known [])) = true
    /\ verdict_is ud "duplicate" "contact_duplicate" true.
Proof.
  run_checks with_directory lead_known H1 H2 H3.
  destruct (proj1 (verdict_priority demo_unicode demo_phonelib demo_fuzz
                     demo_world demo_format with_directory lead_known [])
              _ _ _ _ _ _ H1 H2 H3)
    as (ud & Hrun & Hcontact & _).
  exists ud. eexists. split; [exact Hrun |].
  split; [vm_compute; reflexivity | apply Hcontact; reflexivity].
Defined.

Lemma linkage_fields_written_witness :
  exists ud tr',
    process_lead demo_unicode demo_phonelib demo_fuzz demo_world demo_format
      with_directory lead_known [] = (Ok ud, tr')
    /\ ud !! "hubspot_contact_id_2" = Some (str "101")
    /\ ud !! "hubspot_deal_id_2" = Some (str "202")
    /\ ud !! "hubspot_deal_score_2" = Some (PFloat 82)
    /\ ud !! "alohacamp_match_id_2" = Some (str "rec1")
    /\ ud !! "alohacamp_exists_2" = Some (PBool true)
    /\ snd (process_one demo_unicode demo_phonelib demo_fuzz demo_world
              demo_format with_directory lead_known [])
       = tr' ++ [SupabaseUpdate (PInt 11) ud].
Proof.
  run_checks with_directory lead_known H1 H2 H3.
  destruct (linkage_fields_written demo_unicode demo_phonelib demo_fuzz
              demo_world demo_format with_directory lead_known [])
    as [Hreturns Hrecord].
  destruct (Hreturns _ _ _ _ _ _ H1 H2 H3)
    as (ud & Hrun & Hc & Hd & Ha & Hex).
  exists ud. eexists. split; [exact Hrun |].
  split; [exact (proj1 (Hc _ eq_refl)) |].
  split; [exact (proj1 (Hd _ eq_refl)) |].
  split; [exact (proj2 (proj2 (Hd _ eq_refl))) |].
  split; [exact (proj1 (Ha _ eq_refl)) |].
  split; [exact Hex |].
  apply (proj2 (Hrecord _ _ Hrun)). reflexivity.
Defined.

Ltac q_false H := unfold Qle, Qlt in H; simpl in H; lia.

Lemma best_match_threshold_witness :
  (exists r tr',
     check_deal_duplicates demo_unicode demo_fuzz demo_world lead_lake []
     = (Ok r, tr')
     /\ best_match_law lake_scored r deal_score deal_id
     /\ r = Found {| deal_id := str "203"; deal_name := str "Lake Houses";
                     deal_score := 70 |})
  /\ (exists r tr',
        check_deal_duplicates demo_unicode demo_fuzz demo_world lead_hut []
        = (Ok r, tr')
        /\ best_match_law hut_scored r deal_score deal_id
        /\ r = NotFound)
  /\ (exists r tr',
        check_alohacamp_duplicates demo_unicode demo_fuzz demo_world
          with_directory lead_known [] = (Ok r, tr')
        /\ best_match_law villa_scored r score match_id
        /\ found r = true).
Proof.
  split; [| split].
  - destruct (proj1 (best_match_threshold demo_unicode demo_fuzz demo_world
                       lead_lake [] lake_scored ltac:(discriminate) eq_refl))
      as (r & Hrun & Hlaw).
    + vm_compute. reflexivity.
    + repeat constructor; vm_compute; reflexivity.
    + exists r. eexists. split; [exact Hrun |]. split; [exact Hlaw |].
      revert Hrun. vm_compute. intros [= <-]. reflexivity.
  - destruct (proj1 (best_match_threshold demo_unicode demo_fuzz demo_world
                       lead_hut [] hut_scored ltac:(discriminate) eq_refl))
      as (r & Hrun & Hlaw).
    + vm_compute. reflexivity.
    + repeat constructor; vm_compute; reflexivity.
    + exists r. eexists. split; [exact Hrun |]. split; [exact Hlaw |].
      revert Hrun. vm_compute. intros [= <-]. reflexivity.
  - destruct (proj2 (best_match_threshold demo_unicode demo_fuzz demo_world
                       lead_known [] villa_scored ltac:(discriminate) eq_refl)
                with_directory {| token := str "key"; base_id := str "appBase" |}
                (lit "Seaside Villa") eq_refl eq_refl)
      as (r & Hrun & Hlaw).
    + vm_compute. reflexivity.
    + repeat constructor; vm_compute; reflexivity.
    + exists r. eexists. split; [exact Hrun |]. split; [exact Hlaw |].
      revert Hrun. vm_compute. intros [= <-]. reflexivity.
Defined.

Lemma contact_cascade_witness :
  fst (check_contact_duplicates demo_unicode demo_phonelib demo_fuzz
         demo_world demo_format lead_named [])
  = Ok (Found {| contact_id := str "102";
                 contact_email := str "j@x.com";
                 contact_phone := str "";
                 contact_name := lit "John Smyth";
                 match_type := Some ByName |})
  /\ snd (check_contact_duplicates demo_unicode demo_phonelib demo_fuzz
            demo_world demo_format lead_named [])
     = [email_query (str "z@x.com"); name_query (str "Jon") (str "Smith")]
  /\ name_loop demo_unicode demo_fuzz (str "Jon") (str "Smith")
       [contact "102" "j@x.com" "John" "Smyth" ""]
     = Ok (Some (contact "102" "j@x.com" "John" "Smyth" "")).
Proof.
  assert (Hph : normalize_phone demo_unicode demo_phonelib
                  (dict_get lead_named "phone" (PStr []))
                  (dict_get lead_named "country" (PStr [])) = Ok None)
    by (vm_compute; reflexivity).
  destruct (contact_cascade demo_unicode demo_phonelib demo_fuzz demo_world
              demo_format lead_named [] None Hph)
    as (evs & Htr & _ & _ & _ & _ & _ & Hname & _ & _ & Hclose).
  destruct Hname as [_ Hcands];
    [vm_compute; reflexivity | vm_compute; reflexivity
     | vm_compute; reflexivity |].
  destruct (Hcands crm_contacts) as [Hfirst _]; [vm_compute; reflexivity |].
  split; [| split].
  - rewrite (Hfirst [contact "101" "a@x.com" "Ann" "Lee" "+48123456789"]
               (contact "102" "j@x.com" "John" "Smyth" "") []
               (79%Q, 81%Q)).
    + vm_compute. reflexivity.
    + reflexivity.
    + constructor; [| constructor].
      exists (0%Q, 0%Q). split; [vm_compute; reflexivity |].
      intros [H | H]; q_false H.
    + vm_compute. reflexivity.
    + right. unfold Qle. simpl. lia.
  - vm_compute. reflexivity.
  - apply (Hclose _ [] (79%Q, 81%Q)); [vm_compute; reflexivity | | ];
      reflexivity.
Defined.

Lemma batch_continues_after_failure_witness :
  exists leads tr0,
    fetch_leads_batch demo_world 100 PNone [] = (Ok leads, tr0)
    /\ fst (process_batch demo_unicode demo_phonelib demo_fuzz demo_world
              demo_format with_directory 100 PNone [])
       = Ok (BatchSummary 5 2 2)
    /\ length leads = 5%nat
    /\ count Updated (fst (attempts demo_unicode demo_phonelib demo_fuzz
                             demo_world demo_format with_directory leads tr0))
       = 2
    /\ count Failed (fst (attempts demo_unicode demo_phonelib demo_fuzz
                            demo_world demo_format with_directory leads tr0))
       = 2.
Proof.
  destruct (batch_continues_after_failure demo_unicode demo_phonelib
              demo_fuzz demo_world demo_format with_directory 100 PNone [])
    as (leads & tr0 & Hfetch & Hnone & Hsum & _).
  assert (Hrun : fst (process_batch demo_unicode demo_phonelib demo_fuzz
                        demo_world demo_format with_directory 100 PNone [])
                 = Ok (BatchSummary 5 2 2)) by (vm_compute; reflexivity).
  exists leads, tr0. split; [exact Hfetch |]. split; [exact Hrun |].
  assert (Hne : leads <> []).
  { intros E. rewrite (Hnone E) in Hrun. discriminate Hrun. }
  rewrite (Hsum Hne) in Hrun. simpl fst in Hrun.
  injection Hrun as Hlen Hupdated Hfailed.
  split; [lia |]. split; assumption.
Defined.

(** * Further properties of the module *)

(** ** Normalisation *)

Lemma lstrip_pad ws s :
  forallb py_isspace ws = true -> lstrip (ws ++ s) = lstrip s.
Proof.
  induction ws as [| c r IH]; simpl; [reflexivity |]. intros H.
  apply andb_true_iff in H as [Hc Hr]. rewrite Hc. auto.
Qed.

Lemma rstrip_blank ws : forallb py_isspace ws = true -> rstrip ws = [].
Proof.
  induction ws as [| c r IH]; simpl; [reflexivity |]. intros H.
  apply andb_true_iff in H as [Hc Hr]. now rewrite (IH Hr), Hc.
Qed.

Lemma rstrip_pad s ws :
  forallb py_isspace ws = true -> rstrip (s ++ ws) = rstrip s.
Proof.
  intros H. induction s as [| c r IH]; simpl.
  - now apply rstrip_blank.
  - now rewrite IH.
Qed.

Lemma lstrip_blank ws : forallb py_isspace ws = true -> lstrip ws = [].
Proof.
  intros H. rewrite <- (app_nil_r ws). now rewrite lstrip_pad.
Qed.

Lemma py_strip_pad ws s ws' :
  forallb py_isspace ws = true -> forallb py_isspace ws' = true ->
  py_strip (ws ++ s ++ ws') = py_strip s.
Proof.
  intros H H'. unfold py_strip. rewrite (lstrip_pad _ _ H).
  induction s as [| c r IH]; simpl.
  - now rewrite (lstrip_blank _ H').
  - destruct (py_isspace c); [exact IH |].
    change (c :: r ++ ws') with ((c :: r) ++ ws'). now apply rstrip_pad.
Qed.

(** X1: blanks around a text do not count: a string padded with
    whitespace on either side is normalised to the same text, and as
    a phone it is normalised to the same number. *)
Theorem padding_ignored (U : unicode) (P : phonelib) (ws s ws' : pystr)
    (country_code : pyval) :
  forallb py_isspace ws = true -> forallb py_isspace ws' = true ->
  normalize_text U (PStr (ws ++ s ++ ws')) = normalize_text U (PStr s)
  /\ normalize_phone U P (PStr (ws ++ s ++ ws')) country_code
     = normalize_phone U P (PStr s) country_code.
Proof.
  intros H H'. unfold normalize_text, normalize_phone.
  now rewrite (py_strip_pad ws s ws' H H').
Qed.

(** X2: whatever the Unicode database does, a normalised text holds
    only lower-case ASCII letters, digits and spaces, has no space at
    either end and no two spaces in a row; in particular it never
    starts or ends with a whitespace character. *)
Theorem normalize_text_shape (U : unicode) (x : pyval) :
  forallb norm_char (normalize_text U x) = true
  /\ spaced false (normalize_text U x) = true
  /\ py_strip (normalize_text U x) = normalize_text U x
  /\ (forall c rest, normalize_text U x = c :: rest -> is_az09 c = true)
  /\ (forall front c, normalize_text U x = front ++ [c] -> is_az09 c = true).
Proof.
  destruct (normalize_text_normalized U x) as (Hc & Hs & Hstrip).
  split; [exact Hc |]. split; [exact Hs |]. split; [exact Hstrip |].
  set (t := normalize_text U x) in *. clearbody t. split.
  - intros c rest ->. simpl in Hc. apply andb_true_iff in Hc as [Hc _].
    destruct (norm_char_cases c Hc) as [(Ha & _) | ->]; [exact Ha |].
    unfold py_strip in Hstrip. simpl in Hstrip.
    pose proof (lstrip_length rest) as Hlen.
    pose proof (f_equal (@length N) Hstrip) as Hl.
    assert (Hr : (length (rstrip (lstrip rest)) <= length (lstrip rest))%nat).
    { clear. induction (lstrip rest) as [| d r IH]; simpl; [lia |].
      destruct (rstrip r); [destruct (py_isspace d) |]; simpl in *; lia. }
    simpl in Hl. lia.
  - intros front c ->.
    rewrite forallb_app in Hc. apply andb_true_iff in Hc as [_ Hc].
    simpl in Hc. rewrite andb_true_r in Hc.
    destruct (norm_char_cases c Hc) as [(Ha & _) | ->]; [exact Ha |].
    exfalso. unfold py_strip in Hstrip.
    assert (Hr : forall l, rstrip (l ++ [SPACE]) = rstrip l)
      by (intros l; now apply rstrip_pad).
    pose proof (f_equal (@length N) Hstrip) as Hl.
    assert (Hle : forall l, (length (rstrip l) <= length l)%nat).
    { clear. induction l as [| d r IH]; simpl; [lia |].
      destruct (rstrip r); [destruct (py_isspace d) |]; simpl in *; lia. }
    assert (Hls : exists l, lstrip (front ++ [SPACE]) = l ++ [SPACE]
                            \/ lstrip (front ++ [SPACE]) = []).
    { clear. induction front as [| d r [l IH]]; simpl.
      - exists []. now right.
      - destruct (py_isspace d); [eauto |]. exists (d :: r). now left. }
    destruct Hls as [l [Hls | Hls]]; rewrite Hls in Hl.
    + rewrite Hr in Hl. pose proof (Hle l). rewrite !length_app in Hl.
      simpl in Hl. pose proof (lstrip_length (front ++ [SPACE])) as Hx.
      rewrite Hls, !length_app in Hx. simpl in Hx. lia.
    + rewrite length_app in Hl. simpl in Hl. lia.
Qed.

(** ** The directory formula *)

Lemma escape_quotes_app a b :
  escape_quotes (a ++ b) = escape_quotes a ++ escape_quotes b.
Proof.
  unfold escape_quotes. induction a as [| c r IH]; simpl; [reflexivity |].
  now rewrite IH, app_assoc.
Qed.

Lemma escape_quotes_guarded s : forall front back,
  escape_quotes s = front ++ 39%N :: back ->
  exists front', front = front' ++ [92%N].
Proof.
  induction s as [| c r IH]; intros front back H.
  - now destruct front.
  - change (escape_quotes (c :: r))
      with ((if (c =? 39)%N then [92%N; 39%N] else [c]) ++ escape_quotes r)
      in H.
    destruct (c =? 39)%N eqn:E.
    + destruct front as [| x [| y front]]; simpl in H.
      * discriminate H.
      * injection H as <- _. now exists [].
      * injection H as <- <- H. destruct (IH _ _ H) as [f ->].
        now exists (92%N :: 39%N :: f).
    + destruct front as [| x front]; simpl in H.
      * injection H as -> _. discriminate E.
      * injection H as <- H. destruct (IH _ _ H) as [f ->].
        now exists (c :: f).
Qed.

(** X3: the directory formula is built by putting a backslash before
    each single quote of the property name and nothing else: every
    quote of the escaped name has a backslash right before it, a name
    without quotes is unchanged, the length grows by the number of
    quotes, escaping goes piece by piece, and the request carries the
    escaped name between the fixed parts of the formula, with at most
    20 records asked for. *)
Theorem directory_formula_escaped (W : world) (client : AirtableClient)
    (name : pystr) (city : pyval) (tr : trace) :
  (forall front back,
     escape_quotes name = front ++ 39%N :: back ->
     exists front', front = front' ++ [92%N])
  /\ (forallb (fun c => negb (c =? 39)%N) name = true ->
      escape_quotes name = name)
  /\ length (escape_quotes name)
     = (length name + length (List.filter (fun c => (c =? 39)%N) name))%nat
  /\ (forall a b, escape_quotes (a ++ b) = escape_quotes a ++ escape_quotes b)
  /\ (name <> [] ->
      snd (search_properties W client (PStr name) city tr)
      = tr ++ [AirtableList (base_id client)
                 (lit "SEARCH(LOWER('" ++ escape_quotes name
                    ++ lit "'), LOWER({Property Name}))") 20]).
Proof.
  split; [apply escape_quotes_guarded |].
  split; [| split; [| split; [apply escape_quotes_app |]]].
  - induction name as [| c r IH]; simpl; [reflexivity |]. intros H.
    apply andb_true_iff in H as [Hc Hr].
    apply negb_true_iff in Hc.
    change (escape_quotes (c :: r))
      with ((if (c =? 39)%N then [92%N; 39%N] else [c]) ++ escape_quotes r).
    now rewrite Hc, (IH Hr).
  - induction name as [| c r IH]; [reflexivity |].
    change (escape_quotes (c :: r))
      with ((if (c =? 39)%N then [92%N; 39%N] else [c]) ++ escape_quotes r).
    simpl List.filter. rewrite length_app, IH.
    destruct (c =? 39)%N; simpl; lia.
  - intros Hne. rewrite search_properties_run by (now destruct name).
    reflexivity.
Qed.

(** ** The adapters *)

Lemma hubspot_search_law W object payload key tr :
  adapter_law W key tr (hubspot_search W object payload key tr).
Proof.
  rewrite hubspot_search_run. eexists _, _. split; [reflexivity |].
  right. eexists. repeat split.
Qed.

Lemma adapter_law_idle W key tr : adapter_law W key tr (Ok (PList []), tr).
Proof.
  exists (PList []), []. rewrite app_nil_r. auto.
Qed.

(** X4: none of the five search adapters raises, whatever it is asked
    and whatever the service does, and none makes more than one
    request: it makes none and returns the empty list, or it makes one
    search and returns what the answer holds under the result key.
    That is the empty list when the service fails, when the body is
    not an object and when the body lacks the key; a key holding
    something else than a list is returned as it is. *)
Theorem adapters_never_raise (W : world) (tr : trace) :
  (forall email,
     adapter_law W "results" tr (search_contacts_by_email W email tr))
  /\ (forall phone_e164,
        adapter_law W "results" tr (search_contacts_by_phone W phone_e164 tr))
  /\ (forall first_name last_name,
        adapter_law W "results" tr
          (search_contacts_by_name W first_name last_name tr))
  /\ (forall property_name city,
        adapter_law W "results" tr
          (search_deals_by_property_name W property_name city tr))
  /\ (forall client property_name city,
        adapter_law W "records" tr
          (search_properties W client property_name city tr))
  /\ (forall ev key e,
        respond W ev tr = Raise e -> answer W ev key tr = PList [])
  /\ (forall ev key body,
        respond W ev tr = Ok body -> is_dict body = false ->
        answer W ev key tr = PList [])
  /\ (forall ev key d,
        respond W ev tr = Ok (PDict d) ->
        answer W ev key tr = default (PList []) (d !! key)).
Proof.
  split; [| split; [| split; [| split; [| split; [| split; [| split]]]]]].
  - intros email. unfold search_contacts_by_email.
    destruct (negb (truthy email) || eq_str email (lit "nan"));
      [apply adapter_law_idle | apply hubspot_search_law].
  - intros phone. unfold search_contacts_by_phone.
    destruct (negb (truthy phone));
      [apply adapter_law_idle | apply hubspot_search_law].
  - intros first_name last_name. unfold search_contacts_by_name.
    destruct (truthy first_name), (truthy last_name); simpl;
      first [apply adapter_law_idle | apply hubspot_search_law].
  - intros property_name city. unfold search_deals_by_property_name.
    destruct (negb (truthy property_name));
      [apply adapter_law_idle | apply hubspot_search_law].
  - intros client property_name city.
    destruct property_name as [| b | z | q | s | l | d];
      try (unfold search_properties;
           destruct (negb (truthy _)); apply adapter_law_idle).
    destruct s as [| c r]; [apply adapter_law_idle |].
    rewrite search_properties_run by reflexivity.
    eexists _, _. split; [reflexivity |]. right. eexists. repeat split.
  - intros ev key e H. unfold answer. now rewrite H.
  - intros ev key body H Hd. unfold answer. rewrite H. now destruct body.
  - intros ev key d H. unfold answer. now rewrite H.
Qed.

(** ** Fetching a batch *)

Lemma eligible_leads_ok rows : forall leads,
  eligible_leads rows = Ok leads ->
  Forall (fun lead => eligible lead = true) leads
  /\ map PDict leads `sublist_of` rows.
Proof.
  induction rows as [| row rest IH]; intros leads H.
  - injection H as <-. split; [constructor | constructor].
  - destruct row; try discriminate H. simpl in H.
    destruct (eligible_leads rest) as [tail |]; [| discriminate H].
    destruct (IH tail eq_refl) as [Hall Hsub]. simpl in H.
    fold (eligible d) in H. destruct (eligible d) eqn:E; injection H as <-.
    + split; [now constructor |]. simpl. now apply sublist_skip.
    + split; [assumption |]. now apply sublist_cons.
Qed.

Lemma eligible_leads_malformed rows :
  Exists (fun row => is_dict row = false) rows ->
  exists e, eligible_leads rows = Raise e.
Proof.
  induction 1 as [row rest H | row rest _ [e IH]].
  - destruct row; try discriminate H; simpl; eauto.
  - destruct row; simpl; eauto. rewrite IH. simpl. eauto.
Qed.

Lemma eligible_leads_none rows :
  Forall (fun row => exists d, row = PDict d /\ eligible d = false) rows ->
  eligible_leads rows = Ok [].
Proof.
  induction 1 as [| row rest (d & -> & Hd) _ IH]; [reflexivity |].
  simpl. rewrite IH. simpl. fold (eligible d). now rewrite Hd.
Qed.

Lemma slice_to_sublist {A} n (l : list A) : slice_to n l `sublist_of` l.
Proof. unfold slice_to. destruct (0 <=? n); apply sublist_take. Qed.

Lemma slice_to_Forall {A} (Q : A -> Prop) n (l : list A) :
  Forall Q l -> Forall Q (slice_to n l).
Proof. unfold slice_to. destruct (0 <=? n); apply Forall_take. Qed.

Lemma map_sublist {A B} (f : A -> B) (l1 l2 : list A) :
  l1 `sublist_of` l2 -> map f l1 `sublist_of` map f l2.
Proof.
  induction 1; simpl; [constructor | now apply sublist_skip
                       | now apply sublist_cons].
Qed.

Lemma slice_to_length {A} n (l : list A) :
  0 <= n -> (length (slice_to n l) <= Z.to_nat n)%nat.
Proof.
  intros H. unfold slice_to. rewrite (proj2 (Z.leb_le 0 n) H).
  rewrite length_take. lia.
Qed.

Lemma fetch_leads_batch_run W batch_size start_id tr :
  fetch_leads_batch W batch_size start_id tr
  = (Ok match respond W (select_query batch_size start_id) tr with
        | Ok all_leads =>
            match py_iter all_leads with
            | Ok rows =>
                match eligible_leads rows with
                | Ok leads => slice_to batch_size leads
                | Raise _ => []
                end
            | Raise _ => []
            end
        | Raise _ => []
        end,
     tr ++ [select_query batch_size start_id]).
Proof.
  unfold fetch_leads_batch, try_catch, bind, request, lift, ret.
  fold (select_query batch_size start_id).
  destruct (respond W _ tr) as [all_leads |]; [| reflexivity].
  destruct (py_iter all_leads) as [rows |]; [| reflexivity].
  now destruct (eligible_leads rows).
Qed.

(** X5: [fetch_leads_batch] never raises and asks the store exactly
    once, for ten times the batch size, from [start_id] on only when
    [start_id] is truthy (so not for 0).  Every lead it returns has
    the email status valid, no verdict yet and an email; there are at
    most [batch_size] of them, none for a batch size of 0; and they
    are rows of the answer, in the order of the answer. *)
Theorem fetch_only_eligible (W : world) (batch_size : Z) (start_id : pyval)
    (tr : trace) :
  exists leads,
    fetch_leads_batch W batch_size start_id tr
    = (Ok leads, tr ++ [select_query batch_size start_id])
    /\ Forall (fun lead => eligible lead = true) leads
    /\ (0 <= batch_size -> (length leads <= Z.to_nat batch_size)%nat)
    /\ (batch_size = 0 -> leads = [])
    /\ (forall rows,
          respond W (select_query batch_size start_id) tr = Ok (PList rows) ->
          map PDict leads `sublist_of` rows)
    /\ (truthy start_id = false ->
        select_query batch_size start_id
        = SupabaseSelect None (batch_size * 10)).
Proof.
  eexists. split; [apply fetch_leads_batch_run |].
  assert (Hcases :
    forall leads0,
      leads0 = match respond W (select_query batch_size start_id) tr with
               | Ok all_leads =>
                   match py_iter all_leads with
                   | Ok rows =>
                       match eligible_leads rows with
                       | Ok leads => slice_to batch_size leads
                       | Raise _ => []
                       end
                   | Raise _ => []
                   end
               | Raise _ => []
               end ->
      leads0 = []
      \/ exists all_leads rows leads,
           respond W (select_query batch_size start_id) tr = Ok all_leads
           /\ py_iter all_leads = Ok rows
           /\ eligible_leads rows = Ok leads
           /\ leads0 = slice_to batch_size leads).
  { intros leads0 ->.
    destruct (respond W _ tr) as [all_leads |]; [| now left].
    destruct (py_iter all_leads) as [rows |] eqn:Hi; [| now left].
    destruct (eligible_leads rows) as [leads |] eqn:He; [| now left].
    right. eauto 10. }
  destruct (Hcases _ eq_refl)
    as [-> | (all_leads & rows & leads & Hr & Hi & He & ->)].
  - split; [constructor |]. split; [simpl; lia |].
    split; [reflexivity |]. split; [intros; apply sublist_nil_l |].
    intros H. unfold select_query. now rewrite H.
  - destruct (eligible_leads_ok rows leads He) as [Hall Hsub].
    split; [| split; [| split; [| split]]].
    + now apply slice_to_Forall.
    + apply slice_to_length.
    + intros ->. reflexivity.
    + intros rows' Hr'. rewrite Hr in Hr'. injection Hr' as ->.
      simpl in Hi. injection Hi as <-.
      etransitivity; [| exact Hsub].
      apply map_sublist, slice_to_sublist.
    + intros H. unfold select_query. now rewrite H.
Qed.

(** ** The requests of one lead *)

Lemma check_contact_trace U P F W fmt lead tr :
  exists evs,
    snd (check_contact_duplicates U P F W fmt lead tr) = tr ++ evs
    /\ Forall (fun ev => is_search ev = true) evs
    /\ (length evs <= 3)%nat.
Proof.
  destruct (normalize_phone_returns U P (dict_get lead "phone" (PStr []))
              (dict_get lead "country" (PStr []))) as [ph Hph].
  rewrite (check_contact_run U P F W fmt lead tr ph Hph). cbv zeta.
  simpl snd. rewrite <- !app_assoc. eexists. split; [reflexivity |].
  unfold email_events, exact_events, phone_events, name_events.
  destruct (usable_email _), (truthy (email_results _ _ _)),
    (truthy (opt_str ph)), (name_wanted _ _ _); simpl;
    split; repeat constructor.
Qed.

Lemma check_deal_trace U F W lead tr :
  snd (check_deal_duplicates U F W lead tr)
  = tr ++ deal_events (dict_get lead "property_name" (PStr [])).
Proof.
  unfold check_deal_duplicates, deal_events.
  destruct (truthy (dict_get lead "property_name" (PStr []))) eqn:Hpn.
  - cbn beta iota delta [negb]. unfold bind at 1.
    rewrite (search_deals_run W _ _ tr Hpn).
    destruct (truthy (answer W _ "results" tr)); [| reflexivity].
    unfold bind, lift.
    destruct (py_iter _) as [items |]; [| reflexivity].
    destruct (best_loop _ items None 0%Q) as [best |]; [| reflexivity].
    now destruct (deal_result _ _).
  - simpl. now rewrite app_nil_r.
Qed.

Lemma search_properties_not_str W client property_name city tr :
  (forall s, property_name <> PStr s) ->
  search_properties W client property_name city tr = (Ok (PList []), tr).
Proof.
  intros H. unfold search_properties.
  destruct (negb (truthy property_name)); [reflexivity |].
  destruct property_name; try reflexivity. now destruct (H s).
Qed.

Lemma check_alohacamp_trace U F W self lead tr :
  snd (check_alohacamp_duplicates U F W self lead tr)
  = tr ++ directory_events self (dict_get lead "property_name" (PStr [])).
Proof.
  unfold check_alohacamp_duplicates, directory_events.
  destruct (airtable self) as [client |]; [| simpl; now rewrite app_nil_r].
  set (pn := dict_get lead "property_name" (PStr [])).
  assert (Hidle : forall city,
            (forall s, pn <> PStr s) ->
            snd ((if negb (truthy pn) then ret NotFound
                  else
                    let! airtable_results :=
                      search_properties W client pn city in
                    if truthy airtable_results then
                      let property_norm := normalize_text U pn in
                      let! items := lift (py_iter airtable_results) in
                      let! best :=
                        lift (best_loop
                                (property_score U F "fields" "Name"
                                   property_norm) items None 0%Q) in
                      lift (alohacamp_result (fst best) (snd best))
                    else ret NotFound) tr) = tr).
  { intros city H. destruct (negb (truthy pn)); [reflexivity |].
    unfold bind at 1. now rewrite search_properties_not_str. }
  destruct pn as [| b | z | q | s | l | d] eqn:Epn;
    try (rewrite Hidle by discriminate; now rewrite app_nil_r).
  destruct s as [| c name]; [simpl; now rewrite app_nil_r |].
  cbn beta iota delta [negb truthy]. unfold bind at 1.
  rewrite (search_properties_run W client (c :: name) _ tr eq_refl).
  destruct (truthy (answer W _ "records" tr)); [| reflexivity].
  unfold bind, lift.
  destruct (py_iter _) as [items |]; [| reflexivity].
  destruct (best_loop _ items None 0%Q) as [best |]; [| reflexivity].
  now destruct (alohacamp_result _ _).
Qed.

Lemma deal_events_search pn :
  Forall (fun ev => is_search ev = true) (deal_events pn)
  /\ (length (deal_events pn) <= 1)%nat.
Proof.
  unfold deal_events. destruct (truthy pn); simpl; split;
    repeat constructor.
Qed.

Lemma directory_events_search self pn :
  Forall (fun ev => is_search ev = true) (directory_events self pn)
  /\ (length (directory_events self pn) <= 1)%nat.
Proof.
  unfold directory_events.
  destruct (airtable self), pn as [| | | | [| c s] | |]; simpl; split;
    repeat constructor.
Qed.

Lemma process_lead_trace U P F W fmt self lead tr :
  exists evs,
    snd (process_lead U P F W fmt self lead tr) = tr ++ evs
    /\ Forall (fun ev => is_search ev = true) evs
    /\ (length evs <= 5)%nat.
Proof.
  destruct (check_contact_trace U P F W fmt lead tr)
    as (evs1 & H1 & Hs1 & Hl1).
  unfold process_lead, bind at 1.
  destruct (check_contact_duplicates U P F W fmt lead tr) as [[cc |] t1];
    simpl in H1; subst t1.
  2: { exists evs1. simpl. split; [reflexivity |]. split; [assumption | lia]. }
  pose proof (check_deal_trace U F W lead (tr ++ evs1)) as H2.
  destruct (deal_events_search (dict_get lead "property_name" (PStr [])))
    as [Hs2 Hl2].
  unfold bind at 1.
  destruct (check_deal_duplicates U F W lead (tr ++ evs1)) as [[dc |] t2];
    simpl in H2; subst t2.
  2: { eexists. simpl. rewrite <- app_assoc. split; [reflexivity |].
       split; [now apply Forall_app | rewrite length_app; lia]. }
  pose proof (check_alohacamp_trace U F W self lead
                (((tr ++ evs1)
                  ++ deal_events (dict_get lead "property_name" (PStr [])))))
    as H3.
  destruct (directory_events_search self
              (dict_get lead "property_name" (PStr []))) as [Hs3 Hl3].
  unfold bind at 1.
  destruct (check_alohacamp_duplicates U F W self lead _) as [[ac |] t3];
    simpl in H3; subst t3; simpl; rewrite <- !app_assoc;
    (eexists; split; [reflexivity |]);
    (split; [repeat (apply Forall_app; split); assumption
            | rewrite !length_app; lia]).
Qed.

(** X6: for one lead the checker asks at most five questions, all of
    them searches in HubSpot or in the directory, appended to the
    history it started from; it never reads or writes the store.  The
    deal category asks once when the lead has a property name and not
    at all otherwise; the directory category asks once when there is
    an adapter and the property name is a non-empty string, and not
    at all otherwise. *)
Theorem lead_requests_bounded (U : unicode) (P : phonelib) (F : fuzzlib)
    (W : world) (fmt : pyval -> pystr) (self : HubSpotDuplicateChecker)
    (lead : gmap string pyval) (tr : trace) :
  (exists evs,
     snd (process_lead U P F W fmt self lead tr) = tr ++ evs
     /\ Forall (fun ev => is_search ev = true) evs
     /\ (length evs <= 5)%nat)
  /\ (exists evs,
        snd (check_contact_duplicates U P F W fmt lead tr) = tr ++ evs
        /\ Forall (fun ev => is_search ev = true) evs
        /\ (length evs <= 3)%nat)
  /\ snd (check_deal_duplicates U F W lead tr)
     = tr ++ deal_events (dict_get lead "property_name" (PStr []))
  /\ snd (check_alohacamp_duplicates U F W self lead tr)
     = tr ++ directory_events self (dict_get lead "property_name" (PStr [])).
Proof.
  split; [apply process_lead_trace |].
  split; [apply check_contact_trace |].
  split; [apply check_deal_trace | apply check_alohacamp_trace].
Qed.

(** ** What a lead is judged by *)

(** X7: the verdict of a lead depends on six of its fields only:
    email, phone, country, first name, last name and property name.
    Two leads that agree on them get the same requests, the same
    answers and the same update record; the company and the city of
    the lead, although read, play no part. *)
Theorem only_six_fields_matter (U : unicode) (P : phonelib) (F : fuzzlib)
    (W : world) (fmt : pyval -> pystr) (self : HubSpotDuplicateChecker)
    (lead1 lead2 : gmap string pyval) (tr : trace) :
  lead1 !! "email" = lead2 !! "email" ->
  lead1 !! "phone" = lead2 !! "phone" ->
  lead1 !! "country" = lead2 !! "country" ->
  lead1 !! "first_name" = lead2 !! "first_name" ->
  lead1 !! "last_name" = lead2 !! "last_name" ->
  lead1 !! "property_name" = lead2 !! "property_name" ->
  process_lead U P F W fmt self lead1 tr
  = process_lead U P F W fmt self lead2 tr.
Proof.
  intros He Hp Hc Hf Hl Hn.
  unfold process_lead, check_contact_duplicates, check_deal_duplicates,
    check_alohacamp_duplicates, search_deals_by_property_name,
    search_properties, dict_get.
  cbv zeta. now rewrite He, Hp, Hc, Hf, Hl, Hn.
Qed.

(** X8: a lead with nothing to search by (no usable email, no phone
    that normalises, no first or last name, no property name) is
    judged without a single request: it is unique, a new lead with a
    follow-up, the directory flag is false, and the record has the
    five basic fields only. *)
Theorem nothing_to_search_by (U : unicode) (P : phonelib) (F : fuzzlib)
    (W : world) (fmt : pyval -> pystr) (self : HubSpotDuplicateChecker)
    (lead : gmap string pyval) (tr : trace) :
  usable_email (dict_get lead "email" (PStr [])) = false ->
  normalize_phone U P (dict_get lead "phone" (PStr []))
                  (dict_get lead "country" (PStr [])) = Ok None ->
  truthy (dict_get lead "first_name" (PStr [])) = false ->
  truthy (dict_get lead "last_name" (PStr [])) = false ->
  truthy (dict_get lead "property_name" (PStr [])) = false ->
  exists ud,
    process_lead U P F W fmt self lead tr = (Ok ud, tr)
    /\ verdict_is ud "unique" "new_lead" true
    /\ ud !! "alohacamp_exists_2" = Some (PBool false)
    /\ ud !! "hubspot_checked_at_2" = Some (PStr (now_isoformat W tr))
    /\ size ud = 5%nat.
Proof.
  intros He Hph Hf Hl Hn.
  assert (Hc : check_contact_duplicates U P F W fmt lead tr
               = (Ok NotFound, tr)).
  { rewrite (check_contact_run U P F W fmt lead tr None Hph). cbv zeta.
    unfold email_events, email_results. rewrite He.
    unfold exact_events, exact_outcome, name_events. simpl.
    unfold name_wanted. simpl. rewrite Hf, Hl. simpl.
    rewrite name_stage_skip
      by (unfold name_wanted; simpl; now rewrite Hf, Hl).
    simpl. now rewrite !app_nil_r. }
  assert (Hd : check_deal_duplicates U F W lead tr = (Ok NotFound, tr))
    by (unfold check_deal_duplicates; now rewrite Hn).
  assert (Ha : check_alohacamp_duplicates U F W self lead tr
               = (Ok NotFound, tr)).
  { unfold check_alohacamp_duplicates.
    destruct (airtable self); [| reflexivity]. now rewrite Hn. }
  eexists. split; [exact (process_lead_run _ _ _ _ _ _ _ _ _ _ _ _ _ _
                            Hc Hd Ha) |].
  generalize (now_isoformat W tr). intros stamp.
  unfold verdict_is. repeat split; vm_compute; reflexivity.
Qed.

(** ** Where a match comes from *)

Lemma name_loop_sound U F first_name last_name items : forall contact,
  name_loop U F first_name last_name items = Ok (Some contact) ->
  In contact items
  /\ exists scores,
       name_scores U F first_name last_name contact = Ok scores
       /\ accepted scores.
Proof.
  induction items as [| c rest IH]; intros contact H; [discriminate H |].
  simpl in H.
  destruct (name_scores U F first_name last_name c) as [sc |] eqn:Hs;
    simpl in H; [| discriminate H].
  destruct (score_ge (fst sc) 80 || score_ge (snd sc) 80) eqn:E.
  - injection H as <-. split; [now left |].
    exists sc. split; [assumption | now apply accepted_iff].
  - destruct (IH _ H) as [Hin Hsc]. split; [now right | assumption].
Qed.

Lemma best_loop_sound score_of items : forall bm bs c s,
  best_loop score_of items bm bs = Ok (Some c, s) ->
  (bm = Some c /\ bs = s)
  \/ (In c items /\ score_of c = Ok s /\ (bs < s)%Q).
Proof.
  induction items as [| x rest IH]; intros bm bs c s H.
  - injection H as -> ->. now left.
  - simpl in H. destruct (score_of x) as [sx |] eqn:Hx; simpl in H;
      [| discriminate H].
    destruct (score_gt sx bs) eqn:E.
    + apply score_gt_iff in E.
      destruct (IH _ _ _ _ H) as [[[= <-] <-] | (Hin & Hs & Hlt)].
      * right. repeat split; [now left | assumption | assumption].
      * right. repeat split; [now right | assumption |].
        eapply Qlt_trans; eassumption.
    + destruct (IH _ _ _ _ H) as [[-> ->] | (Hin & Hs & Hlt)];
        [now left |].
      right. repeat split; [now right | assumption | assumption].
Qed.

(** X9: a contact match always says how it was found, and it was
    found that way.  A match by email is the first hit of the email
    lookup; a match by phone is the first hit of the phone lookup,
    made after an empty email result; a match by name is one of the
    candidates of the name lookup, made after two empty results, and
    one of its two name scores is at least 80. *)
Theorem contact_match_provenance (U : unicode) (P : phonelib) (F : fuzzlib)
    (W : world) (fmt : pyval -> pystr) (lead : gmap string pyval)
    (tr tr' : trace) (phone_e164 : option pystr) (m : contact_match) :
  normalize_phone U P (dict_get lead "phone" (PStr []))
                  (dict_get lead "country" (PStr [])) = Ok phone_e164 ->
  check_contact_duplicates U P F W fmt lead tr = (Ok (Found m), tr') ->
  found_by U F W fmt lead tr phone_e164 m.
Proof.
  intros Hph Hrun. unfold found_by. cbv zeta.
  set (email := dict_get lead "email" (PStr [])).
  set (first_name := dict_get lead "first_name" (PStr [])).
  set (last_name := dict_get lead "last_name" (PStr [])).
  set (email_res := email_results W email tr).
  set (tr1 := tr ++ email_events email).
  set (phone_res := phone_results W phone_e164 tr1).
  set (tr2 := tr1 ++ exact_events phone_e164 email_res).
  rewrite (check_contact_run U P F W fmt lead tr phone_e164 Hph) in Hrun.
  cbv zeta in Hrun.
  fold email first_name last_name email_res tr1 tr2 in Hrun.
  injection Hrun as Hrun _.
  set (after_exact := exact_outcome W phone_e164 email_res tr1) in *.
  pose proof (name_wanted_exact W phone_e164 email_res tr1
                first_name last_name) as Hw.
  fold after_exact phone_res in Hw.
  destruct (truthy email_res) eqn:He.
  - left. rewrite name_stage_skip in Hrun by (rewrite Hw; reflexivity).
    simpl in Hrun. unfold after_exact in Hrun.
    rewrite exact_outcome_email in Hrun by assumption. simpl in Hrun.
    destruct (contact_result_found _ _ _ _ Hrun) as [_ Hm]. auto.
  - destruct (truthy phone_res) eqn:Hp.
    + right. left.
      rewrite name_stage_skip in Hrun by (rewrite Hw; reflexivity).
      simpl in Hrun. unfold after_exact in Hrun.
      rewrite exact_outcome_phone in Hrun by assumption. simpl in Hrun.
      destruct (contact_result_found _ _ _ _ Hrun) as [_ Hm]. auto.
    + right. right.
      assert (Hnone : truthy (fst after_exact) = false)
        by (now apply exact_outcome_nothing).
      destruct (name_wanted first_name last_name after_exact) eqn:Ew.
      2: { rewrite name_stage_skip in Hrun by assumption. simpl in Hrun.
           rewrite contact_result_nothing in Hrun by assumption.
           discriminate Hrun. }
      rewrite (name_stage_run _ _ _ _ _ _ _ Ew) in Hrun. simpl fst in Hrun.
      fold tr1 tr2 in Hrun. cbv zeta in Hrun.
      destruct (truthy (name_results_of W first_name last_name tr2)).
      2: { simpl in Hrun.
           rewrite contact_result_nothing in Hrun by assumption.
           discriminate Hrun. }
      destruct (py_iter _) as [items |] eqn:Hi; simpl in Hrun;
        [| discriminate Hrun].
      destruct (name_loop U F first_name last_name items) as [[c |] |] eqn:Hn;
        simpl in Hrun; try discriminate Hrun.
      * destruct (name_loop_sound _ _ _ _ _ _ Hn) as (Hin & sc & Hs & Hacc).
        destruct (contact_result_found _ _ _ _ Hrun) as [_ Hm].
        split; [exact Hm |]. split; [reflexivity |]. split; [reflexivity |].
        exists items, c, sc. auto.
      * rewrite contact_result_nothing in Hrun by assumption.
        discriminate Hrun.
Qed.

Lemma deal_result_inv best_match best_score m :
  deal_result best_match best_score = Ok (Found m) ->
  exists c,
    best_match = Some c /\ (70 <= best_score)%Q
    /\ deal_score m = best_score
    /\ py_get c "id" PNone = Ok (deal_id m).
Proof.
  unfold deal_result. destruct best_match as [c |]; [| discriminate].
  destruct (truthy c); simpl; [| discriminate].
  destruct (score_ge best_score 70) eqn:E; [| discriminate].
  destruct (py_get c "properties" _) as [props |]; simpl; [| discriminate].
  destruct (py_get c "id" PNone) as [v |] eqn:Hid; simpl; [| discriminate].
  destruct (py_get props "dealname" _); simpl; [| discriminate].
  intros [= <-]. exists c. apply score_ge_iff in E. auto.
Qed.

Lemma alohacamp_result_inv best_match best_score m :
  alohacamp_result best_match best_score = Ok (Found m) ->
  exists c,
    best_match = Some c /\ (70 <= best_score)%Q
    /\ score m = best_score
    /\ py_get c "id" PNone = Ok (match_id m).
Proof.
  unfold alohacamp_result. destruct best_match as [c |]; [| discriminate].
  destruct (truthy c); simpl; [| discriminate].
  destruct (score_ge best_score 70) eqn:E; [| discriminate].
  destruct (py_get c "fields" _) as [fields |]; simpl; [| discriminate].
  destruct (py_get c "id" PNone) as [v |] eqn:Hid; simpl; [| discriminate].
  destruct (py_get fields "Property Name" _); simpl; [| discriminate].
  intros [= <-]. exists c. apply score_ge_iff in E. auto.
Qed.

(** X10: a deal or directory match is never reported below the
    threshold: whatever the service answers, a reported match has a
    score of at least 70, it is one of the candidates of the answer,
    its score is the property-name score of that candidate, and its
    identifier is that candidate's.  An empty answer gives not-found. *)
Theorem property_match_sound (U : unicode) (F : fuzzlib) (W : world)
    (self : HubSpotDuplicateChecker) (lead : gmap string pyval) (tr : trace) :
  let property_name := dict_get lead "property_name" (PStr []) in
  (forall m tr',
     check_deal_duplicates U F W lead tr = (Ok (Found m), tr') ->
     (70 <= deal_score m)%Q
     /\ exists items c,
          py_iter (answer W (deals_query property_name) "results" tr)
          = Ok items
          /\ In c items
          /\ property_score U F "properties" "dealname"
               (normalize_text U property_name) c = Ok (deal_score m)
          /\ py_get c "id" PNone = Ok (deal_id m))
  /\ (forall client name m tr',
        airtable self = Some client -> property_name = PStr name ->
        check_alohacamp_duplicates U F W self lead tr = (Ok (Found m), tr') ->
        (70 <= score m)%Q
        /\ exists items c,
             py_iter (answer W (directory_query client name) "records" tr)
             = Ok items
             /\ In c items
             /\ property_score U F "fields" "Name"
                  (normalize_text U property_name) c = Ok (score m)
             /\ py_get c "id" PNone = Ok (match_id m))
  /\ (truthy (answer W (deals_query property_name) "results" tr) = false ->
      fst (check_deal_duplicates U F W lead tr) = Ok NotFound)
  /\ (forall client name,
        airtable self = Some client -> property_name = PStr name ->
        truthy (answer W (directory_query client name) "records" tr) = false ->
        fst (check_alohacamp_duplicates U F W self lead tr) = Ok NotFound).
Proof.
  intros pn. split; [| split; [| split]].
  - intros m tr'. unfold check_deal_duplicates. fold pn.
    destruct (truthy pn) eqn:Hpn; [| discriminate].
    cbn beta iota delta [negb]. unfold bind at 1.
    rewrite (search_deals_run W pn _ tr Hpn).
    destruct (truthy (answer W _ "results" tr)); [| discriminate].
    unfold bind, lift.
    destruct (py_iter _) as [items |]; [| discriminate].
    destruct (best_loop _ items None 0%Q) as [[bm bs] |] eqn:Hb;
      [| discriminate].
    simpl fst. simpl snd.
    destruct (deal_result bm bs) as [r |] eqn:Hr; [| discriminate].
    intros [= -> _].
    destruct (deal_result_inv _ _ _ Hr) as (c & -> & Hge & Hs & Hid).
    destruct (best_loop_sound _ _ _ _ _ _ Hb)
      as [[[=] _] | (Hin & Hsc & _)].
    rewrite Hs. split; [assumption |]. exists items, c. auto.
  - intros client name m tr' Hself Hname.
    unfold check_alohacamp_duplicates. fold pn. rewrite Hself, Hname.
    destruct (truthy (PStr name)) eqn:Hpn; [| discriminate].
    cbn beta iota delta [negb]. unfold bind at 1.
    rewrite (search_properties_run W client name _ tr Hpn).
    destruct (truthy (answer W _ "records" tr)); [| discriminate].
    unfold bind, lift.
    destruct (py_iter _) as [items |]; [| discriminate].
    destruct (best_loop _ items None 0%Q) as [[bm bs] |] eqn:Hb;
      [| discriminate].
    simpl fst. simpl snd.
    destruct (alohacamp_result bm bs) as [r |] eqn:Hr; [| discriminate].
    intros [= -> _].
    destruct (alohacamp_result_inv _ _ _ Hr) as (c & -> & Hge & Hs & Hid).
    destruct (best_loop_sound _ _ _ _ _ _ Hb)
      as [[[=] _] | (Hin & Hsc & _)].
    rewrite Hs. split; [assumption |]. exists items, c. auto.
  - intros Hempty. unfold check_deal_duplicates. fold pn.
    destruct (truthy pn) eqn:Hpn; [| reflexivity].
    cbn beta iota delta [negb]. unfold bind at 1.
    rewrite (search_deals_run W pn _ tr Hpn). now rewrite Hempty.
  - intros client name Hself Hname Hempty.
    unfold check_alohacamp_duplicates. fold pn. rewrite Hself, Hname.
    destruct (truthy (PStr name)) eqn:Hpn; [| reflexivity].
    cbn beta iota delta [negb]. unfold bind at 1.
    rewrite (search_properties_run W client name _ tr Hpn).
    now rewrite Hempty.
Qed.

(** ** Writing to the store *)

Lemma updates_app evs1 evs2 :
  updates (evs1 ++ evs2) = (updates evs1 + updates evs2)%nat.
Proof. unfold updates. now rewrite List.filter_app, length_app. Qed.

Lemma updates_searches evs :
  Forall (fun ev => is_search ev = true) evs -> updates evs = 0%nat.
Proof.
  unfold updates. induction 1 as [| ev rest H _ IH]; [reflexivity |].
  simpl. destruct ev; try discriminate H; exact IH.
Qed.

Lemma process_one_run U P F W fmt self lead tr :
  process_one U P F W fmt self lead tr
  = match process_lead U P F W fmt self lead tr with
    | (Ok ud, t) =>
        match lead !! "id" with
        | Some id =>
            (match respond W (SupabaseUpdate id ud) t with
             | Ok data => Ok (truthy data)
             | Raise e => Raise e
             end, t ++ [SupabaseUpdate id ud])
        | None => (Raise KeyError, t)
        end
    | (Raise e, t) => (Raise e, t)
    end.
Proof.
  unfold process_one, bind at 1.
  destruct (process_lead U P F W fmt self lead tr) as [[ud |] t];
    [| reflexivity].
  unfold bind, lift, lead_id, request, ret.
  destruct (lead !! "id"); [| reflexivity].
  now destruct (respond W _ t).
Qed.

Lemma process_one_trace U P F W fmt self lead tr :
  exists evs,
    snd (process_one U P F W fmt self lead tr) = tr ++ evs
    /\ Forall (request_of lead) evs
    /\ (updates evs <= 1)%nat
    /\ (forall updated,
          fst (process_one U P F W fmt self lead tr) = Ok updated ->
          updates evs = 1%nat)
    /\ (lead !! "id" = None -> updates evs = 0%nat).
Proof.
  destruct (process_lead_trace U P F W fmt self lead tr)
    as (evs & Htr & Hs & _).
  pose proof (updates_searches evs Hs) as Hu.
  assert (Hreq : Forall (request_of lead) evs).
  { eapply Forall_impl; [exact Hs |]. intros ev H. now left. }
  rewrite process_one_run.
  destruct (process_lead U P F W fmt self lead tr) as [[ud |] t];
    simpl in Htr; subst t.
  - destruct (lead !! "id") as [id |] eqn:Hid.
    + exists (evs ++ [SupabaseUpdate id ud]).
      assert (Hu1 : updates (evs ++ [SupabaseUpdate id ud]) = 1%nat)
        by (rewrite updates_app, Hu; reflexivity).
      split; [simpl; now rewrite app_assoc |].
      split; [apply Forall_app; split; [assumption |];
              constructor; [right; eauto | constructor] |].
      split; [lia |]. split; [auto | discriminate].
    + exists evs. simpl. split; [reflexivity |]. split; [assumption |].
      split; [lia |]. split; [intros ? [=] | auto].
  - exists evs. simpl. split; [reflexivity |]. split; [assumption |].
    split; [lia |]. split; [intros ? [=] | auto].
Qed.

(** X11: a lead without an id is never written: after its searches
    the attempt ends with an exception, it counts as a failure of the
    batch, and no update is sent to the store for it.  For any lead,
    at most one update is sent, for the lead's own id, and exactly
    one when the attempt ends without exception. *)
Theorem missing_id_not_written (U : unicode) (P : phonelib) (F : fuzzlib)
    (W : world) (fmt : pyval -> pystr) (self : HubSpotDuplicateChecker)
    (lead : gmap string pyval) (tr : trace) :
  (lead !! "id" = None ->
   (exists e, fst (process_one U P F W fmt self lead tr) = Raise e)
   /\ snd (process_one U P F W fmt self lead tr)
      = snd (process_lead U P F W fmt self lead tr)
   /\ fst (attempt U P F W fmt self lead tr) = Failed)
  /\ exists evs,
       snd (process_one U P F W fmt self lead tr) = tr ++ evs
       /\ Forall (request_of lead) evs
       /\ (updates evs <= 1)%nat
       /\ (forall updated,
             fst (process_one U P F W fmt self lead tr) = Ok updated ->
             updates evs = 1%nat)
       /\ (lead !! "id" = None -> updates evs = 0%nat).
Proof.
  split; [| apply process_one_trace].
  intros Hid. unfold attempt. rewrite process_one_run, Hid.
  destruct (process_lead U P F W fmt self lead tr) as [[ud |] t]; simpl;
    eauto.
Qed.

Lemma count_nonneg o os : 0 <= count o os.
Proof.
  induction os as [| x rest IH]; simpl; [lia |].
  destruct (lead_outcome_eqb x o); lia.
Qed.

Lemma count_total os :
  count Updated os + count Unchanged os + count Failed os
  = Z.of_nat (length os).
Proof.
  induction os as [| x rest IH]; [reflexivity |].
  cbn [count length]. destruct x; simpl lead_outcome_eqb; lia.
Qed.

Lemma attempt_run U P F W fmt self lead tr :
  snd (attempt U P F W fmt self lead tr)
  = snd (process_one U P F W fmt self lead tr)
  /\ (fst (attempt U P F W fmt self lead tr) <> Failed ->
      exists updated,
        fst (process_one U P F W fmt self lead tr) = Ok updated).
Proof.
  unfold attempt.
  destruct (process_one U P F W fmt self lead tr) as [[[|] |] t]; simpl;
    split; eauto; easy.
Qed.

Lemma attempts_trace U P F W fmt self leads : forall tr,
  exists evs,
    snd (attempts U P F W fmt self leads tr) = tr ++ evs
    /\ Forall (fun ev => exists lead, In lead leads /\ request_of lead ev) evs
    /\ (updates evs <= length leads)%nat
    /\ count Updated (fst (attempts U P F W fmt self leads tr))
       + count Unchanged (fst (attempts U P F W fmt self leads tr))
       <= Z.of_nat (updates evs).
Proof.
  induction leads as [| lead rest IH]; intros tr.
  - exists []. simpl. rewrite app_nil_r.
    split; [reflexivity |]. split; [constructor |]. cbv. split; [lia | discriminate].
  - destruct (process_one_trace U P F W fmt self lead tr)
      as (evs1 & Htr1 & Hreq1 & Hle1 & Hok1 & _).
    destruct (attempt_run U P F W fmt self lead tr) as [Hsnd Hfst].
    rewrite <- Hsnd in Htr1.
    destruct (IH (snd (attempt U P F W fmt self lead tr)))
      as (evs2 & Htr2 & Hreq2 & Hle2 & Hcnt2).
    exists (evs1 ++ evs2). cbn [attempts fst snd].
    split; [rewrite Htr2, Htr1; now rewrite app_assoc |].
    split.
    { apply Forall_app. split.
      - eapply Forall_impl; [exact Hreq1 |]. intros ev H.
        exists lead. split; [now left | assumption].
      - eapply Forall_impl; [exact Hreq2 |]. intros ev (l & Hin & H).
        exists l. split; [now right | assumption]. }
    rewrite updates_app. split; [simpl; lia |].
    cbn [count].
    destruct (fst (attempt U P F W fmt self lead tr)) eqn:Eo;
      simpl lead_outcome_eqb.
    + destruct Hfst as [b Hb]; [discriminate |].
      rewrite (Hok1 b) by (rewrite <- Hb; reflexivity). lia.
    + destruct Hfst as [b Hb]; [discriminate |].
      rewrite (Hok1 b) by (rewrite <- Hb; reflexivity). lia.
    + lia.
Qed.

Lemma fetch_leads_batch_bound W batch_size start_id tr leads tr0 :
  fetch_leads_batch W batch_size start_id tr = (Ok leads, tr0) ->
  tr0 = tr ++ [select_query batch_size start_id]
  /\ (0 <= batch_size -> Z.of_nat (length leads) <= batch_size).
Proof.
  rewrite fetch_leads_batch_run. intros [= <- <-]. split; [reflexivity |].
  intros Hb.
  destruct (respond W _ tr) as [all_leads |]; [| simpl; lia].
  destruct (py_iter all_leads) as [rows |]; [| simpl; lia].
  destruct (eligible_leads rows) as [leads |]; [| simpl; lia].
  pose proof (slice_to_length batch_size leads Hb). lia.
Qed.

(** X12: the summary of a batch adds up.  The number of leads is at
    least 1 and, for a batch size that is not negative, at most the
    batch size; the updated and error counts are not negative and
    together do not exceed the number of leads.  After the one query
    that fetched the leads the store is only written to: every later
    request is a search or the update of the row of one of the leads,
    there are at most as many updates as leads, and at least as many
    as leads that did not fail. *)
Theorem summary_adds_up (U : unicode) (P : phonelib) (F : fuzzlib)
    (W : world) (fmt : pyval -> pystr) (self : HubSpotDuplicateChecker)
    (batch_size : Z) (start_id : pyval) (tr tr' : trace)
    (leads_processed updated_count errors : Z) :
  process_batch U P F W fmt self batch_size start_id tr
  = (Ok (BatchSummary leads_processed updated_count errors), tr') ->
  1 <= leads_processed
  /\ (0 <= batch_size -> leads_processed <= batch_size)
  /\ 0 <= updated_count /\ 0 <= errors
  /\ updated_count + errors <= leads_processed
  /\ exists leads evs,
       fst (fetch_leads_batch W batch_size start_id tr) = Ok leads
       /\ tr' = tr ++ select_query batch_size start_id :: evs
       /\ Forall (fun ev => exists lead, In lead leads /\ request_of lead ev)
                 evs
       /\ Z.of_nat (updates evs) <= leads_processed
       /\ updated_count <= Z.of_nat (updates evs)
       /\ leads_processed - errors <= Z.of_nat (updates evs).
Proof.
  unfold process_batch, bind at 1.
  destruct (fetch_leads_batch_returns W batch_size start_id tr)
    as (leads & tr0 & Hfetch).
  rewrite Hfetch.
  destruct (fetch_leads_batch_bound _ _ _ _ _ _ Hfetch) as [-> Hbound].
  destruct leads as [| lead rest] eqn:El; [discriminate |]. rewrite <- El in *.
  unfold bind. rewrite batch_loop_run. intros [= <- <- <- <-].
  set (os := fst (attempts U P F W fmt self leads _)).
  pose proof (count_total os) as Htot.
  pose proof (count_nonneg Updated os). pose proof (count_nonneg Failed os).
  pose proof (count_nonneg Unchanged os).
  pose proof (attempts_length U P F W fmt self leads
                (tr ++ [select_query batch_size start_id])) as Hlen.
  fold os in Hlen.
  destruct (attempts_trace U P F W fmt self leads
              (tr ++ [select_query batch_size start_id]))
    as (evs & Htr & Hreq & Hup & Hcnt).
  fold os in Hcnt.
  assert (Hpos : 1 <= Z.of_nat (length leads)) by (rewrite El; simpl; lia).
  split; [lia |]. split; [assumption |]. split; [lia |]. split; [lia |].
  split; [lia |].
  exists leads, evs. split; [reflexivity |].
  split; [rewrite Htr, <- app_assoc; reflexivity |].
  split; [assumption |]. lia.
Qed.

(** X13: a batch with nothing to work on ends with the error record
    after its one query, without any search or update.  That is the
    case for a batch size of 0, when the store fails, when its answer
    is not a list of rows, and when no row is eligible; and also
    when a single row of the answer is not an object, which discards
    the whole answer. *)
Theorem batch_without_leads (U : unicode) (P : phonelib) (F : fuzzlib)
    (W : world) (fmt : pyval -> pystr) (self : HubSpotDuplicateChecker)
    (batch_size : Z) (start_id : pyval) (tr : trace) :
  batch_size = 0
  \/ (exists e, respond W (select_query batch_size start_id) tr = Raise e)
  \/ (exists body e,
        respond W (select_query batch_size start_id) tr = Ok body
        /\ py_iter body = Raise e)
  \/ (exists rows,
        respond W (select_query batch_size start_id) tr = Ok (PList rows)
        /\ (Exists (fun row => is_dict row = false) rows
            \/ Forall (fun row => exists d, row = PDict d
                                            /\ eligible d = false) rows)) ->
  process_batch U P F W fmt self batch_size start_id tr
  = (Ok (BatchError (lit "No leads found to process")),
     tr ++ [select_query batch_size start_id]).
Proof.
  intros H. unfold process_batch, bind. rewrite fetch_leads_batch_run.
  assert (Hnone :
    match respond W (select_query batch_size start_id) tr with
    | Ok all_leads =>
        match py_iter all_leads with
        | Ok rows =>
            match eligible_leads rows with
            | Ok leads => slice_to batch_size leads
            | Raise _ => []
            end
        | Raise _ => []
        end
    | Raise _ => []
    end = []).
  { destruct H as [-> | [[e ->] | [(body & e & -> & ->)
                                  | (rows & -> & [Hbad | Hnone])]]];
      try reflexivity.
    - destruct (respond W _ tr) as [all_leads |]; [| reflexivity].
      destruct (py_iter all_leads) as [rows |]; [| reflexivity].
      now destruct (eligible_leads rows).
    - simpl. now destruct (eligible_leads_malformed rows Hbad) as [e ->].
    - simpl. rewrite (eligible_leads_none rows Hnone).
      unfold slice_to. destruct (0 <=? batch_size); apply firstn_nil. }
  now rewrite Hnone.
Qed.

(** ** The fields of the update record *)

Lemma update_data_fields cc dc ac stamp :
  let ud := update_data_of cc dc ac stamp in
  ud !! "hubspot_checked_at_2" = Some (PStr stamp)
  /\ (found cc = false ->
      ud !! "hubspot_contact_id_2" = None
      /\ ud !! "hubspot_contact_email_2" = None
      /\ ud !! "hubspot_contact_phone_2" = None
      /\ ud !! "hubspot_contact_name_2" = None
      /\ ud !! "hubspot_contact_match_type_2" = None)
  /\ (found dc = false ->
      ud !! "hubspot_deal_id_2" = None
      /\ ud !! "hubspot_deal_name_2" = None
      /\ ud !! "hubspot_deal_score_2" = None)
  /\ (found ac = false ->
      ud !! "alohacamp_match_id_2" = None
      /\ ud !! "alohacamp_match_name_2" = None
      /\ ud !! "alohacamp_score_2" = None)
  /\ size ud
     = (5 + (if found cc then 5 else 0) + (if found dc then 3 else 0)
        + (if found ac then 3 else 0))%nat.
Proof.
  destruct cc as [| c], dc as [| d], ac as [| a]; cbn [found]; cbv zeta;
    (split; [vm_compute; reflexivity |]);
    (split; [intros; first [absurd_found
                           | repeat split; vm_compute; reflexivity] |]);
    (split; [intros; first [absurd_found
                           | repeat split; vm_compute; reflexivity] |]);
    (split; [intros; first [absurd_found
                           | repeat split; vm_compute; reflexivity] |]);
    vm_compute; reflexivity.
Qed.

(** X14: the update record holds what this run found and nothing
    else: besides the status, the reason, the follow-up flag, the
    time stamp taken after the last request and the directory flag,
    it has the five contact fields only when a contact was found, the
    three deal fields only when a deal was found and the three
    directory fields only when a record was found; a category without
    match leaves its fields out of the record. *)
Theorem record_leaves_out_unmatched (U : unicode) (P : phonelib)
    (F : fuzzlib) (W : world) (fmt : pyval -> pystr)
    (self : HubSpotDuplicateChecker) (lead : gmap string pyval)
    (tr tr' : trace) (ud : gmap string pyval) :
  process_lead U P F W fmt self lead tr = (Ok ud, tr') ->
  exists cc dc ac t1 t2,
    check_contact_duplicates U P F W fmt lead tr = (Ok cc, t1)
    /\ check_deal_duplicates U F W lead t1 = (Ok dc, t2)
    /\ check_alohacamp_duplicates U F W self lead t2 = (Ok ac, tr')
    /\ ud !! "hubspot_checked_at_2" = Some (PStr (now_isoformat W tr'))
    /\ (found cc = false ->
        ud !! "hubspot_contact_id_2" = None
        /\ ud !! "hubspot_contact_email_2" = None
        /\ ud !! "hubspot_contact_phone_2" = None
        /\ ud !! "hubspot_contact_name_2" = None
        /\ ud !! "hubspot_contact_match_type_2" = None)
    /\ (found dc = false ->
        ud !! "hubspot_deal_id_2" = None
        /\ ud !! "hubspot_deal_name_2" = None
        /\ ud !! "hubspot_deal_score_2" = None)
    /\ (found ac = false ->
        ud !! "alohacamp_match_id_2" = None
        /\ ud !! "alohacamp_match_name_2" = None
        /\ ud !! "alohacamp_score_2" = None)
    /\ size ud
       = (5 + (if found cc then 5 else 0) + (if found dc then 3 else 0)
          + (if found ac then 3 else 0))%nat.
Proof.
  intros Hrun.
  destruct (process_lead_inv _ _ _ _ _ _ _ _ _ _ Hrun)
    as (cc & dc & ac & t1 & t2 & Hc & Hd & Ha & ->).
  exists cc, dc, ac, t1, t2.
  split; [assumption |]. split; [assumption |]. split; [assumption |].
  apply update_data_fields.
Qed.

(** X15: a lead that has been judged is not taken again: in a row
    to which an update record of [process_lead] has been applied the
    verdict field is a string, so the row is no longer eligible,
    whatever its other fields. *)
Theorem judged_lead_not_eligible (U : unicode) (P : phonelib) (F : fuzzlib)
    (W : world) (fmt : pyval -> pystr) (self : HubSpotDuplicateChecker)
    (lead : gmap string pyval) (tr tr' : trace) (ud : gmap string pyval) :
  process_lead U P F W fmt self lead tr = (Ok ud, tr') ->
  forall row : gmap string pyval,
    (exists status, (ud ∪ row) !! "hubspot_duplicate_check_2"
                    = Some (PStr status))
    /\ eligible (ud ∪ row) = false.
Proof.
  intros Hrun row.
  destruct (process_lead_inv _ _ _ _ _ _ _ _ _ _ Hrun)
    as (cc & dc & ac & _ & _ & _ & _ & _ & ->).
  assert (H : exists status,
            update_data_of cc dc ac (now_isoformat W tr')
              !! "hubspot_duplicate_check_2" = Some (PStr status)).
  { generalize (now_isoformat W tr'). intros stamp.
    destruct cc, dc, ac; eexists; vm_compute; reflexivity. }
  destruct H as [status H].
  assert (Hu : (update_data_of cc dc ac (now_isoformat W tr') ∪ row)
                 !! "hubspot_duplicate_check_2" = Some (PStr status))
    by (apply lookup_union_Some_l; exact H).
  split; [eauto |].
  unfold eligible, dict_get. rewrite Hu. simpl.
  now rewrite andb_false_r.
Qed.

(** ** Country hints and malformed hits *)

(** X16: a country hint that is missing, not a string or blank is no
    hint at all: the phone is parsed without a default region, as for
    the hint [None].  Any other hint is upper-cased as it is, blanks
    included. *)
Theorem blank_hint_is_no_hint (U : unicode) (P : phonelib)
    (phone country_code : pyval) :
  ((forall s, country_code <> PStr s)
   \/ (exists ws, country_code = PStr ws /\ forallb py_isspace ws = true) ->
   default_region U country_code = None
   /\ normalize_phone U P phone country_code
      = normalize_phone U P phone PNone)
  /\ (forall s, country_code = PStr s -> py_strip s <> [] ->
      default_region U country_code = Some (str_upper U s)).
Proof.
  split.
  - intros H.
    assert (Hd : default_region U country_code = None).
    { destruct H as [H | (ws & -> & H)].
      - destruct country_code; try reflexivity. now destruct (H s).
      - unfold default_region, py_strip.
        now rewrite (lstrip_blank ws H). }
    split; [exact Hd |]. unfold normalize_phone. now rewrite Hd.
  - intros s -> Hs. unfold default_region.
    destruct (py_strip s); [easy | reflexivity].
Qed.

(** X17: a hit that is not an object stops the lead.  When the first
    hit of the email lookup is not a JSON object, the contact category
    raises right after the email request; [process_lead] raises with
    it, without asking about deals or the directory, and the batch
    counts the lead as failed without writing to the store. *)
Theorem malformed_hit_fails_lead (U : unicode) (P : phonelib) (F : fuzzlib)
    (W : world) (fmt : pyval -> pystr) (self : HubSpotDuplicateChecker)
    (lead : gmap string pyval) (tr : trace) (hit : pyval) :
  let email := dict_get lead "email" (PStr []) in
  truthy (email_results W email tr) = true ->
  py_index0 (email_results W email tr) = Ok hit ->
  is_dict hit = false ->
  check_contact_duplicates U P F W fmt lead tr
  = (Raise AttributeError, tr ++ [email_query email])
  /\ process_lead U P F W fmt self lead tr
     = (Raise AttributeError, tr ++ [email_query email])
  /\ attempt U P F W fmt self lead tr
     = (Failed, tr ++ [email_query email]).
Proof.
  intros email Ht Hhit Hd.
  assert (Hu : usable_email email = true).
  { unfold email_results in Ht.
    destruct (usable_email email); [reflexivity | discriminate Ht]. }
  assert (Hc : check_contact_duplicates U P F W fmt lead tr
               = (Raise AttributeError, tr ++ [email_query email])).
  { destruct (normalize_phone_returns U P (dict_get lead "phone" (PStr []))
                (dict_get lead "country" (PStr []))) as [ph Hph].
    rewrite (check_contact_run U P F W fmt lead tr ph Hph). cbv zeta.
    fold email.
    rewrite name_stage_skip
      by (rewrite name_wanted_exact, Ht; reflexivity).
    unfold exact_events, name_events. rewrite name_wanted_exact, Ht.
    rewrite exact_outcome_email by assumption.
    unfold email_events. rewrite Hu. simpl.
    unfold contact_result. rewrite Ht, Hhit. rewrite !app_nil_r.
    destruct hit; try discriminate Hd; reflexivity. }
  assert (Hp : process_lead U P F W fmt self lead tr
               = (Raise AttributeError, tr ++ [email_query email]))
    by (unfold process_lead, bind at 1; now rewrite Hc).
  split; [exact Hc |]. split; [exact Hp |].
  unfold attempt. now rewrite process_one_run, Hp.
Qed.

(** ** The further properties at work *)

Import Cases.

(** [run_pair H m] records the run [m] with its value computed and
    its trace left as it is. *)
Ltac run_pair H m :=
  let v := eval vm_compute in (fst m) in
  assert (H : m = (v, snd m))
    by (rewrite (surjective_pairing m) at 1; f_equal;
        vm_compute; reflexivity).

Lemma padding_ignored_witness :
  normalize_text demo_unicode (PStr ([9%N; 32%N] ++ lit "Sea Side" ++ [10%N]))
  = normalize_text demo_unicode (str "Sea Side")
  /\ normalize_phone demo_unicode demo_phonelib
       (PStr ([9%N; 32%N] ++ lit "123456789" ++ [10%N])) (str "pl")
     = Ok (Some (lit "+48123456789")).
Proof.
  split.
  - apply (padding_ignored demo_unicode demo_phonelib [9%N; 32%N]
             (lit "Sea Side") [10%N] PNone); reflexivity.
  - rewrite (proj2 (padding_ignored demo_unicode demo_phonelib [9%N; 32%N]
                      (lit "123456789") [10%N] (str "pl") eq_refl eq_refl)).
    vm_compute. reflexivity.
Defined.

Lemma only_six_fields_matter_witness :
  lead_known_elsewhere !! "id" <> lead_known !! "id"
  /\ process_lead demo_unicode demo_phonelib demo_fuzz demo_world demo_format
       with_directory lead_known []
     = process_lead demo_unicode demo_phonelib demo_fuzz demo_world
         demo_format with_directory lead_known_elsewhere [].
Proof.
  split; [vm_compute; discriminate |].
  apply only_six_fields_matter; vm_compute; reflexivity.
Defined.

Lemma nothing_to_search_by_witness :
  exists ud,
    process_lead demo_unicode demo_phonelib demo_fuzz demo_world demo_format
      with_directory lead_bare [] = (Ok ud, [])
    /\ verdict_is ud "unique" "new_lead" true
    /\ size ud = 5%nat.
Proof.
  destruct (nothing_to_search_by demo_unicode demo_phonelib demo_fuzz
              demo_world demo_format with_directory lead_bare [])
    as (ud & Hrun & Hv & _ & _ & Hsize); try (vm_compute; reflexivity).
  exists ud. auto.
Defined.

Lemma contact_match_provenance_witness :
  exists m,
    fst (check_contact_duplicates demo_unicode demo_phonelib demo_fuzz
           demo_world demo_format lead_named []) = Ok (Found m)
    /\ match_type m = Some ByName
    /\ found_by demo_unicode demo_fuzz demo_world demo_format lead_named []
         None m.
Proof.
  run_pair Hrun (check_contact_duplicates demo_unicode demo_phonelib
                   demo_fuzz demo_world demo_format lead_named []).
  eexists. split; [rewrite Hrun; reflexivity |]. split; [reflexivity |].
  eapply contact_match_provenance; [| exact Hrun].
  vm_compute. reflexivity.
Defined.

Lemma summary_adds_up_witness :
  fst (process_batch demo_unicode demo_phonelib demo_fuzz demo_world
         demo_format with_directory 100 PNone []) = Ok (BatchSummary 5 2 2)
  /\ exists evs,
       snd (process_batch demo_unicode demo_phonelib demo_fuzz demo_world
              demo_format with_directory 100 PNone [])
       = [] ++ select_query 100 PNone :: evs
       /\ 2 <= Z.of_nat (updates evs) <= 5.
Proof.
  run_pair Hrun (process_batch demo_unicode demo_phonelib demo_fuzz
                   demo_world demo_format with_directory 100 PNone []).
  split; [rewrite Hrun; reflexivity |].
  destruct (summary_adds_up _ _ _ _ _ _ _ _ _ _ _ _ _ Hrun)
    as (_ & _ & _ & _ & _ & leads & evs & _ & Htr & _ & Hle & Hge & _).
  exists evs. split; [exact Htr | lia].
Defined.

Lemma batch_without_leads_witness :
  process_batch demo_unicode demo_phonelib demo_fuzz demo_world demo_format
    with_directory 0 PNone []
  = (Ok (BatchError (lit "No leads found to process")),
     [SupabaseSelect None 0])
  /\ process_batch demo_unicode demo_phonelib demo_fuzz bad_row_world
       demo_format with_directory 100 (PInt 7) []
     = (Ok (BatchError (lit "No leads found to process")),
        [SupabaseSelect (Some (PInt 7)) 1000]).
Proof.
  split.
  - apply (batch_without_leads demo_unicode demo_phonelib demo_fuzz
             demo_world demo_format with_directory 0 PNone []).
    left. reflexivity.
  - apply (batch_without_leads demo_unicode demo_phonelib demo_fuzz
             bad_row_world demo_format with_directory 100 (PInt 7) []).
    right. right. right.
    exists [row "valid" lead_known; PInt 3]. split; [reflexivity |].
    left. apply Exists_cons_tl. apply Exists_cons_hd. reflexivity.
Defined.

Lemma record_leaves_out_unmatched_witness :
  exists ud tr',
    process_lead demo_unicode demo_phonelib demo_fuzz demo_world demo_format
      with_directory lead_lake [] = (Ok ud, tr')
    /\ ud !! "hubspot_contact_id_2" = None
    /\ ud !! "alohacamp_match_id_2" = None
    /\ size ud = 8%nat.
Proof.
  run_checks with_directory lead_lake H1 H2 H3.
  pose proof (process_lead_run _ _ _ _ _ _ _ _ _ _ _ _ _ _ H1 H2 H3) as Hrun.
  destruct (record_leaves_out_unmatched _ _ _ _ _ _ _ _ _ _ Hrun)
    as (cc & dc & ac & t1 & t2 & Hc & Hd & Ha & _ & Hnc & _ & Hna & Hsize).
  rewrite H1 in Hc. injection Hc as <- <-.
  rewrite H2 in Hd. injection Hd as <- <-.
  rewrite H3 in Ha. injection Ha as <-.
  eexists _, _. split; [exact Hrun |].
  split; [exact (proj1 (Hnc eq_refl)) |].
  split; [exact (proj1 (Hna eq_refl)) | exact Hsize].
Defined.

Lemma judged_lead_not_eligible_witness :
  eligible (<["zerobounce_status" := str "valid"]> lead_new) = true
  /\ exists ud tr',
       process_lead demo_unicode demo_phonelib demo_fuzz demo_world
         demo_format with_directory lead_new [] = (Ok ud, tr')
       /\ eligible (ud ∪ <["zerobounce_status" := str "valid"]> lead_new)
          = false.
Proof.
  split; [vm_compute; reflexivity |].
  run_checks with_directory lead_new H1 H2 H3.
  pose proof (process_lead_run _ _ _ _ _ _ _ _ _ _ _ _ _ _ H1 H2 H3) as Hrun.
  eexists _, _. split; [exact Hrun |].
  apply (judged_lead_not_eligible _ _ _ _ _ _ _ _ _ _ Hrun).
Defined.

Lemma malformed_hit_fails_lead_witness :
  process_lead demo_unicode demo_phonelib demo_fuzz null_hit_world
    demo_format without_directory lead_known []
  = (Raise AttributeError, [email_query (str "a@x.com")])
  /\ attempt demo_unicode demo_phonelib demo_fuzz null_hit_world
       demo_format without_directory lead_known []
     = (Failed, [email_query (str "a@x.com")]).
Proof.
  destruct (malformed_hit_fails_lead demo_unicode demo_phonelib demo_fuzz
              null_hit_world demo_format without_directory lead_known []
              PNone) as (_ & Hp & Ha); try (vm_compute; reflexivity).
  split; [exact Hp | exact Ha].
Defined.

Lemma directory_formula_escaped_witness :
  escape_quotes (lit "O'Neil's") = lit "O\'Neil\'s"
  /\ length (escape_quotes (lit "O'Neil's")) = 10%nat
  /\ snd (search_properties demo_world
            {| token := str "key"; base_id := str "appBase" |}
            (PStr (lit "O'Neil's")) PNone [])
     = [AirtableList (str "appBase")
          (lit "SEARCH(LOWER('O\'Neil\'s'), LOWER({Property Name}))") 20].
Proof.
  destruct (directory_formula_escaped demo_world
              {| token := str "key"; base_id := str "appBase" |}
              (lit "O'Neil's") PNone []) as (_ & _ & Hlen & _ & Hreq).
  split; [vm_compute; reflexivity |].
  split; [rewrite Hlen; reflexivity |].
  rewrite Hreq by discriminate. vm_compute. reflexivity.
Defined.

Lemma fetch_only_eligible_witness :
  exists leads,
    fetch_leads_batch demo_world 2 PNone []
    = (Ok leads, [SupabaseSelect None 20])
    /\ length leads = 2%nat
    /\ Forall (fun lead => eligible lead = true) leads.
Proof.
  destruct (fetch_only_eligible demo_world 2 PNone [])
    as (leads & Hrun & Hall & Hlen & _).
  exists leads. split; [exact Hrun |]. split; [| exact Hall].
  pose proof (Hlen ltac:(lia)) as Hle.
  assert (Hn : length (match fst (fetch_leads_batch demo_world 2 PNone [])
                       with Ok l => l | Raise _ => [] end) = 2%nat)
    by (vm_compute; reflexivity).
  now rewrite Hrun in Hn.
Defined.

Lemma property_match_sound_witness :
  exists m,
    fst (check_deal_duplicates demo_unicode demo_fuzz demo_world lead_lake [])
    = Ok (Found m)
    /\ (70 <= deal_score m)%Q
    /\ deal_id m = str "203".
Proof.
  run_pair Hrun (check_deal_duplicates demo_unicode demo_fuzz demo_world
                   lead_lake []).
  eexists. split; [rewrite Hrun; reflexivity |].
  split; [| reflexivity].
  exact (proj1 (proj1 (property_match_sound demo_unicode demo_fuzz demo_world
                         with_directory lead_lake []) _ _ Hrun)).
Defined.

Lemma missing_id_not_written_witness :
  lead_hut !! "id" = None
  /\ fst (attempt demo_unicode demo_phonelib demo_fuzz demo_world demo_format
            with_directory lead_hut []) = Failed
  /\ exists evs,
       snd (process_one demo_unicode demo_phonelib demo_fuzz demo_world
              demo_format with_directory lead_hut []) = [] ++ evs
       /\ updates evs = 0%nat.
Proof.
  destruct (missing_id_not_written demo_unicode demo_phonelib demo_fuzz
              demo_world demo_format with_directory lead_hut [])
    as (Hnone & evs & Htr & _ & _ & _ & Hzero).
  split; [reflexivity |].
  split; [exact (proj2 (proj2 (Hnone eq_refl))) |].
  exists evs. split; [exact Htr | exact (Hzero eq_refl)].
Defined.
